(** * request-manager.js: the request lifecycle engine

    A shallow embedding of [src/lib/request-manager.js]: the operation
    factory [describe], the token manager ([generateAccessToken],
    [refreshAccessToken]), the request builder [buildRequest] and the
    executor [exec].

    JavaScript values are an inductive type, objects live in a heap that is
    addressed by reference (so aliasing is visible), asynchronous work is a
    list of pending transport calls together with their (defunctionalised)
    continuations, and everything observable is appended to an event log.

    What the model leaves out: strings are sequences of 8-bit characters;
    numbers are integers; objects have own properties only (nothing is
    inherited from a prototype, so a property named like a member of
    [Object.prototype] is read as absent unless the object has its own); a
    function of the caller is known by its identity, a call of it as a
    callback is recorded in the log and is taken to return normally without
    calling back into the request manager; a call of it as a replacer by
    [String.prototype.replace] is not recorded, only the text it returns is
    kept. The statements that depend on these two points say so in a
    hypothesis ([own_named], [plain_binding], [plain_text]). *)

From Stdlib Require Import ZArith String Ascii List DecimalString Lia.
From stdpp Require Import base option gmap strings.
Import ListNotations.

Local Open Scope Z_scope.

(** ** JavaScript values *)

Definition loc := positive.
Definition fid := nat.

(** [VNum] holds integer-valued numbers (status codes, ids); [VObj] is a
    reference to a plain object of the heap; [VErr] is an [Error] object with
    its message; [VFun] is a function, known by its identity only. *)
Inductive value : Type :=
| VUndefined
| VNull
| VBool (b : bool)
| VNum (n : Z)
| VStr (s : string)
| VObj (l : loc)
| VErr (msg : string)
| VFun (f : fid).

#[global] Instance value_eq_dec : EqDecision value.
Proof. solve_decision. Defined.

(** [typeof v] *)
Definition typeof (v : value) : string :=
  match v with
  | VUndefined => "undefined"
  | VNull => "object"
  | VBool _ => "boolean"
  | VNum _ => "number"
  | VStr _ => "string"
  | VObj _ => "object"
  | VErr _ => "object"
  | VFun _ => "function"
  end.

(** ToBoolean, as used by [if (x)], [!x], [x ? a : b], [x && y], [x || y]. *)
Definition truthy (v : value) : bool :=
  match v with
  | VUndefined | VNull => false
  | VBool b => b
  | VNum n => negb (n =? 0)
  | VStr s => negb (String.eqb s "")
  | VObj _ | VErr _ | VFun _ => true
  end.

(** What the host knows about a function value: its source text (for
    ToString) and what it returns, as a string, when [String.prototype.replace]
    calls it as a replacer with the match, its offset and the whole string. *)
Class Host := {
  fn_text : fid -> string;
  fn_replacer : fid -> string -> Z -> string -> string
}.

Definition string_of_Z (n : Z) : string := NilZero.string_of_int (Z.to_int n).

(** ToString. A plain object prints as [[object Object]]. *)
Definition to_string `{Host} (v : value) : string :=
  match v with
  | VUndefined => "undefined"
  | VNull => "null"
  | VBool true => "true"
  | VBool false => "false"
  | VNum n => string_of_Z n
  | VStr s => s
  | VObj _ => "[object Object]"
  | VErr msg => if String.eqb msg "" then "Error" else "Error: " +:+ msg
  | VFun f => fn_text f
  end.

(** [x == 'literal'] for a non-empty literal that is not the text of a number:
    only a string with the same characters is loosely equal to it. *)
Definition loose_eq_str (v : value) (s : string) : bool :=
  match v with
  | VStr t => String.eqb t s
  | _ => false
  end.

(** ** The heap of plain objects *)

Abbreviation obj := (gmap string value).
Abbreviation heap := (gmap loc obj).

Definition alloc (o : obj) (h : heap) : loc * heap :=
  let l := fresh (dom h) in (l, <[l := o]> h).

(** [v[k]] for reading: [None] is the TypeError of reading a property of
    [undefined] or [null]. Own properties only; an [Error] has its message. *)
Definition get_prop (h : heap) (v : value) (k : string) : option value :=
  match v with
  | VUndefined | VNull => None
  | VObj l => Some (default VUndefined (h !! l ≫= (.!! k)))
  | VErr msg => Some (if String.eqb k "message" then VStr msg else VUndefined)
  | _ => Some VUndefined
  end.

(** [v[k] = x]: [None] is the TypeError of writing a property of [undefined]
    or [null]; a write to a primitive is dropped (the file is not in strict
    mode); writes to function and [Error] values are not tracked. *)
Definition set_prop (h : heap) (v : value) (k : string) (x : value) : option heap :=
  match v with
  | VUndefined | VNull => None
  | VObj l => Some (<[l := <[k := x]> (default ∅ (h !! l))]> h)
  | _ => Some h
  end.

(** ** Strings: the placeholder pattern and [String.prototype.replace] *)

Definition in_range (lo hi c : ascii) : bool :=
  ((nat_of_ascii lo <=? nat_of_ascii c) && (nat_of_ascii c <=? nat_of_ascii hi))%nat.

(** The character class [[a-z|A-Z|\_|\-]] of line 29: inside a class the
    vertical bar is an ordinary member. *)
Definition is_param_char (c : ascii) : bool :=
  in_range "a" "z" c || Ascii.eqb c "|" || in_range "A" "Z" c
  || Ascii.eqb c "_" || Ascii.eqb c "-".

Definition close_match (cur : option string) : list string :=
  match cur with
  | Some m => [m]
  | None => []
  end.

(** All matches of a global pattern "a colon, then any number of members of
    a character class", left to right. [cur] is the match being extended, if
    the scan is inside one: a match opens at a colon, takes the longest run
    of class members, and the search resumes right after it. *)
Fixpoint scan_class (member : ascii -> bool) (cur : option string) (s : string)
    : list string :=
  match s with
  | EmptyString => close_match cur
  | String c s' =>
      match cur with
      | Some m =>
          if member c then scan_class member (Some (m +:+ String c "")) s'
          else m :: (if Ascii.eqb c ":" then scan_class member (Some ":"%string) s'
                     else scan_class member None s')
      | None =>
          if Ascii.eqb c ":" then scan_class member (Some ":"%string) s'
          else scan_class member None s'
      end
  end.

Fixpoint string_forallb (p : ascii -> bool) (s : string) : bool :=
  match s with
  | EmptyString => true
  | String c s' => p c && string_forallb p s'
  end.

(** A match of the pattern: a colon, then members of the class only. *)
Definition is_match (member : ascii -> bool) (p : string) : bool :=
  match p with
  | String c n => Ascii.eqb c ":" && string_forallb member n
  | EmptyString => false
  end.

(** [options.path.match(pattern) || []], with the pattern of line 29. *)
Definition path_parameters (path : string) : list string :=
  scan_class is_param_char None path.

(** The pattern as the specification words it: "a colon followed by letters,
    digits, underscore, hyphen". *)
Definition is_spec_char (c : ascii) : bool :=
  in_range "a" "z" c || in_range "A" "Z" c || in_range "0" "9" c
  || Ascii.eqb c "_" || Ascii.eqb c "-".

Definition spec_path_parameters (path : string) : list string :=
  scan_class is_spec_char None path.

(** Letters, underscore and hyphen: the class of line 29 without the bar. *)
Definition is_name_char (c : ascii) : bool :=
  in_range "a" "z" c || in_range "A" "Z" c || Ascii.eqb c "_" || Ascii.eqb c "-".

Definition name_path_parameters (path : string) : list string :=
  scan_class is_name_char None path.

Fixpoint strip_prefix (p s : string) : option string :=
  match p with
  | EmptyString => Some s
  | String a p' =>
      match s with
      | EmptyString => None
      | String b s' => if Ascii.eqb a b then strip_prefix p' s' else None
      end
  end.

(** The text before and after the first occurrence of [pat] in [s]. *)
Fixpoint split_first (pat s : string) : option (string * string) :=
  match strip_prefix pat s with
  | Some rest => Some (EmptyString, rest)
  | None =>
      match s with
      | EmptyString => None
      | String c s' =>
          match split_first pat s' with
          | Some (b, a) => Some (String c b, a)
          | None => None
          end
      end
  end.

(** GetSubstitution for a string pattern (no capture groups): [$$], [$&],
    [$`] and [$'] are expanded in the replacement text, every other
    character stands for itself. *)
Fixpoint get_substitution (matched before after repl : string) : string :=
  match repl with
  | EmptyString => EmptyString
  | String c r =>
      if Ascii.eqb c "$" then
        match r with
        | String d r' =>
            if Ascii.eqb d "$" then String "$" (get_substitution matched before after r')
            else if Ascii.eqb d "&" then matched +:+ get_substitution matched before after r'
            else if Ascii.eqb d "`" then before +:+ get_substitution matched before after r'
            else if Ascii.eqb d "'" then after +:+ get_substitution matched before after r'
            else String c (get_substitution matched before after r)
        | EmptyString => String c EmptyString
        end
      else String c (get_substitution matched before after r)
  end.

(** [s.replace(pat, v)] with a string pattern: the first occurrence only. *)
Definition js_replace `{Host} (s pat : string) (v : value) : string :=
  match split_first pat s with
  | None => s
  | Some (b, a) =>
      let r := match v with
               | VFun f => fn_replacer f pat (Z.of_nat (String.length b)) s
               | _ => get_substitution pat b a (to_string v)
               end in
      b +:+ r +:+ a
  end.

(** [s.replace(/\:/g, '')] *)
Fixpoint strip_colons (s : string) : string :=
  match s with
  | EmptyString => EmptyString
  | String c s' => if Ascii.eqb c ":" then strip_colons s' else String c (strip_colons s')
  end.

(** [param.replace(':', '')]: the first colon only. *)
Fixpoint strip_first_colon (s : string) : string :=
  match s with
  | EmptyString => EmptyString
  | String c s' => if Ascii.eqb c ":" then s' else String c (strip_first_colon s')
  end.

(** [xs.join(sep)] *)
Fixpoint join (sep : string) (xs : list string) : string :=
  match xs with
  | [] => EmptyString
  | [x] => x
  | x :: rest => x +:+ sep +:+ join sep rest
  end.

(** ** Collaborators that live outside this file *)

(** Modelled from the spec: the schema validator,
    [validate(schema, payload) -> list<{path, message}>] and
    [generateErrorMessage(errors) -> string]; its code ([./validation]) is
    not part of the sources. It reads the payload through the heap. *)
Record verror := { vpath : string; vmessage : string }.

Class Validation := {
  validate : heap -> value -> value -> list verror;
  generateErrorMessage : list verror -> string
}.

(** Modelled from the spec: the configuration store ([./configurations]),
    "pure get/set, no business logic": base URL, user agent, client id and
    secret, current access and refresh token. *)
Record configurations := {
  baseUrl : string;
  userAgent : value;
  clientId : value;
  clientSecret : value;
  accessToken : value;
  refreshToken : value
}.

Definition setAccessToken (v : value) (c : configurations) : configurations :=
  {| baseUrl := baseUrl c; userAgent := userAgent c; clientId := clientId c;
     clientSecret := clientSecret c; accessToken := v; refreshToken := refreshToken c |}.

Definition setRefreshToken (v : value) (c : configurations) : configurations :=
  {| baseUrl := baseUrl c; userAgent := userAgent c; clientId := clientId c;
     clientSecret := clientSecret c; accessToken := accessToken c; refreshToken := v |}.

(** ** Descriptors, call intents, wire requests *)

(** The [options] object given to [describe]. *)
Record descriptor := { opt_path : string; opt_method : string }.

(** The [options] object given to [exec] and [buildRequest]. *)
Record call_intent := {
  path : string;
  method : string;
  payload : value;
  schema : value;
  headers : value
}.

(** The object handed to the transport. *)
Record wire_request := {
  uri : string;
  req_method : string;
  user_agent : value;
  accept : value;
  content_type : value;
  qs : value;
  json : value;
  form : value;
  strictSSL : bool
}.

Definition JSON_MIME_TYPE : string := "application/json".

(** ** Callbacks, events and the state of the program *)

(** The functions that are passed as callbacks: a function of the caller,
    or one of the three closures of the file, with what each captures
    ([KOperation]: lines 67-79, which read [options] again when they run;
    [KAcquired]: lines 103-112; [KRefreshed]: lines 132-141). *)
Inductive cont : Type :=
| KUser (f : fid)
| KOperation (d : nat) (payload schema : value) (callback : cont)
| KAcquired (callback : cont)
| KRefreshed (callback : cont).

Inductive event : Type :=
| Called (f : fid) (err res : value)
| Requested (req : wire_request)
| Uncaught (e : value).

Record state := {
  st_heap : heap;
  st_config : configurations;
  st_options : gmap nat descriptor;
  st_pending : list (wire_request * cont);
  st_log : list event
}.

(** ** Computations: state passing with exceptions *)

Inductive outcome (A : Type) : Type :=
| Ret (a : A)
| Throw (e : value).
Arguments Ret {A} a.
Arguments Throw {A} e.

Definition M (A : Type) : Type := state -> outcome A * state.

#[global] Instance M_ret : MRet M := fun A a st => (Ret a, st).

#[global] Instance M_bind : MBind M := fun A B k m st =>
  match m st with
  | (Ret a, st') => k a st'
  | (Throw e, st') => (Throw e, st')
  end.

Definition throw {A : Type} (e : value) : M A := fun st => (Throw e, st).

(** The text of a TypeError depends on the engine; only its kind is kept. *)
Definition type_error : value := VErr "TypeError".

Definition get_heap : M heap := fun st => (Ret (st_heap st), st).

Definition put_heap (h : heap) : M unit := fun st =>
  (Ret tt, {| st_heap := h; st_config := st_config st; st_options := st_options st;
              st_pending := st_pending st; st_log := st_log st |}).

Definition get_config : M configurations := fun st => (Ret (st_config st), st).

Definition update_config (f : configurations -> configurations) : M unit := fun st =>
  (Ret tt, {| st_heap := st_heap st; st_config := f (st_config st);
              st_options := st_options st; st_pending := st_pending st;
              st_log := st_log st |}).

Definition log_event (e : event) : M unit := fun st =>
  (Ret tt, {| st_heap := st_heap st; st_config := st_config st;
              st_options := st_options st; st_pending := st_pending st;
              st_log := st_log st ++ [e] |}).

(** An object literal: a fresh object of the heap. *)
Definition new_object (o : obj) : M value :=
  h ← get_heap;
  let '(l, h') := alloc o h in
  put_heap h';; mret (VObj l).

Definition read_prop (v : value) (k : string) : M value :=
  h ← get_heap;
  match get_prop h v k with
  | Some x => mret x
  | None => throw type_error
  end.

Definition write_prop (v : value) (k : string) (x : value) : M unit :=
  h ← get_heap;
  match set_prop h v k x with
  | Some h' => put_heap h'
  | None => throw type_error
  end.

(** Reading a field of the captured [options]; a TypeError if [describe] was
    given nothing. *)
Definition read_options (d : nat) : M descriptor := fun st =>
  match st_options st !! d with
  | Some o => (Ret o, st)
  | None => (Throw type_error, st)
  end.

(** [options.path = p] *)
Definition write_options_path (d : nat) (p : string) : M unit := fun st =>
  (Ret tt, {| st_heap := st_heap st; st_config := st_config st;
              st_options := alter (fun o => {| opt_path := p; opt_method := opt_method o |}) d (st_options st);
              st_pending := st_pending st; st_log := st_log st |}).

(** [request(req, handler)]: the transport takes the request; the handler of
    [exec] waits with the callback it captured. *)
Definition request (req : wire_request) (callback : cont) : M unit := fun st =>
  (Ret tt, {| st_heap := st_heap st; st_config := st_config st;
              st_options := st_options st;
              st_pending := st_pending st ++ [(req, callback)];
              st_log := st_log st ++ [Requested req] |}).

(** ** The request manager *)

Section RequestManager.
Context `{Host} `{Validation}.

(** [options.headers ? (options.headers[name] || JSON_MIME_TYPE) : JSON_MIME_TYPE] *)
Definition header_or_json (hs : value) (name : string) : M value :=
  if truthy hs then
    v ← read_prop hs name;
    mret (if truthy v then v else VStr JSON_MIME_TYPE)
  else mret (VStr JSON_MIME_TYPE).

(** Lines 168-174: the schema check of the JSON branch. *)
Definition check_schema (options : call_intent) : M unit :=
  if truthy (schema options) then
    h ← get_heap;
    let errors := validate h (schema options) (payload options) in
    if (0 <? length errors)%nat then throw (VErr (generateErrorMessage errors))
    else mret tt
  else mret tt.

(** [requestManager.buildRequest], lines 150-188. The three values chosen
    by lines 163-180 are [request.qs], [request.json] and [request.form]. *)
Definition buildRequest (options : call_intent) : M wire_request :=
  cfg ← get_config;
  a ← header_or_json (headers options) "accept";
  ct ← header_or_json (headers options) "content-type";
  qs0 ← new_object ∅;
  '(q, j, f) ←
    (if String.eqb (method options) "GET" then
       mret (payload options, VBool true, VUndefined)
     else if loose_eq_str ct JSON_MIME_TYPE then
       check_schema options;;
       mret (qs0, payload options, VUndefined)
     else mret (qs0, VBool true, payload options));
  cfg' ← get_config;
  write_prop q "access_token" (accessToken cfg');;
  mret {| uri := baseUrl cfg +:+ path options;
          req_method := method options;
          user_agent := userAgent cfg;
          accept := a;
          content_type := ct;
          qs := q;
          json := j;
          form := f;
          strictSSL := true |}.

(** [requestManager.exec], lines 195-219, up to the call of the transport.
    [deliver k err res] is [k.apply(null, [err, res])]. *)
Definition exec_with (deliver : cont -> value -> value -> M unit)
    (options : call_intent) (callback : cont) : M unit :=
  fun st =>
    match buildRequest options st with
    | (Throw e, st') => deliver callback e VNull st'
    | (Ret req, st') => request req callback st'
    end.

(** The handler that [exec] gives to the transport, lines 205-218. *)
Definition on_response_with (deliver : cont -> value -> value -> M unit)
    (callback : cont) (error : value) (statusCode : Z) (body : value) : M unit :=
  if truthy error then deliver callback error VNull
  else if (statusCode <? 200) || (300 <=? statusCode) then
    m ← read_prop body "message";
    deliver callback (VErr (if truthy m then to_string m else "Unknown Error")) VNull
  else
    r ← new_object {[ "status" := VNum statusCode; "body" := body ]};
    deliver callback VNull r.

(** [configurations.setAccessToken(response.body.access_token)
      .setRefreshToken(response.body.refresh_token)] and the token that the
    callback is then given (lines 107-110 and 136-139). *)
Definition store_tokens (response : value) : M value :=
  b ← read_prop response "body";
  at1 ← read_prop b "access_token";
  update_config (setAccessToken at1);;
  b' ← read_prop response "body";
  rt ← read_prop b' "refresh_token";
  update_config (setRefreshToken rt);;
  b'' ← read_prop response "body";
  read_prop b'' "access_token".

(** [k.apply(null, [err, res])] for each kind of callback. *)
Fixpoint apply_cont (k : cont) (err res : value) {struct k} : M unit :=
  match k with
  | KUser f => log_event (Called f err res)
  | KOperation d p s callback =>
      (* lines 67-79 *)
      if truthy err then apply_cont callback err VNull
      else
        o ← read_options d;
        exec_with apply_cont
          {| path := opt_path o; method := opt_method o; payload := p;
             schema := s; headers := VUndefined |} callback
  | KAcquired callback =>
      (* lines 103-112 *)
      if truthy err then
        m ← read_prop err "message";
        apply_cont callback
          (VErr ("Error getting the access_token: " +:+ to_string m)) VNull
      else
        t ← store_tokens res;
        apply_cont callback VNull t
  | KRefreshed callback =>
      (* lines 132-141 *)
      if truthy err then
        m ← read_prop err "message";
        apply_cont callback
          (VErr ("Error refreshing previous access_token: " +:+ to_string m)) VNull
      else
        t ← store_tokens res;
        apply_cont callback VNull t
  end.

Definition exec : call_intent -> cont -> M unit := exec_with apply_cont.

Definition on_response : cont -> value -> Z -> value -> M unit :=
  on_response_with apply_cont.

(** [requestManager.generateAccessToken], lines 87-114. *)
Definition generateAccessToken (callback : cont) : M unit :=
  cfg ← get_config;
  if truthy (accessToken cfg) then apply_cont callback VNull (accessToken cfg)
  else if negb (truthy (clientId cfg)) || negb (truthy (clientSecret cfg)) then
    apply_cont callback (VErr "Must set client_id and client_secret") VNull
  else
    p ← new_object {[ "client_id" := clientId cfg;
                      "client_secret" := clientSecret cfg;
                      "grant_type" := VStr "client_credentials" ]};
    exec {| path := "/oauth/token"; method := "POST"; payload := p;
            schema := VUndefined; headers := VUndefined |}
         (KAcquired callback).

(** [requestManager.refreshAccessToken], lines 121-143. *)
Definition refreshAccessToken (callback : cont) : M unit :=
  cfg ← get_config;
  if negb (truthy (refreshToken cfg)) then
    apply_cont callback
      (VErr "You need the refresh_token to refresh the access_token") VNull
  else
    p ← new_object {[ "client_secret" := accessToken cfg;
                      "grant_type" := VStr "refresh_token" ]};
    exec {| path := "/oauth/token"; method := "POST"; payload := p;
            schema := VUndefined; headers := VUndefined |}
         (KRefreshed callback).

(** [_arguments[i]] *)
Definition arg_at (args : list value) (i : Z) : value :=
  if i <? 0 then VUndefined else nth (Z.to_nat i) args VUndefined.

(** Lines 41-43: [pathParameters.forEach], from index [index] on. *)
Fixpoint fill_from_arguments (d : nat) (args : list value) (index : Z)
    (params : list string) : M unit :=
  match params with
  | [] => mret tt
  | param :: rest =>
      o ← read_options d;
      write_options_path d (js_replace (opt_path o) param (arg_at args index));;
      fill_from_arguments d args (index + 1) rest
  end.

(** Lines 48-56: [pathParameters.forEach], with [missing] the
    [missingProperties] collected so far. *)
Fixpoint fill_from_payload (d : nat) (p : value) (missing : list string)
    (params : list string) : M (list string) :=
  match params with
  | [] => mret missing
  | param :: rest =>
      let propertyFromPayload := strip_first_colon param in
      found ← (if truthy p then
                 v ← read_prop p propertyFromPayload; mret (truthy v)
               else mret false);
      if (found : bool) then
        o ← read_options d;
        v ← read_prop p propertyFromPayload;
        write_options_path d (js_replace (opt_path o) param v);;
        fill_from_payload d p missing rest
      else fill_from_payload d p (missing ++ [propertyFromPayload]) rest
  end.

(** The function returned by [requestManager.describe(options)], lines
    19-80, for the options object [d]; [this_schema] is [this.schema] and
    [args] is [arguments]. *)
Definition describe (d : nat) (this_schema : value) (args : list value) : M unit :=
  let n := Z.of_nat (length args) in
  match arg_at args (n - 1) with
  | VFun callback =>
      o ← read_options d;
      let pathParameters := path_parameters (opt_path o) in
      p ← (if String.eqb (typeof (arg_at args (n - 2))) "object"
           then mret (arg_at args (n - 2)) else new_object ∅);
      (if String.eqb (opt_method o) "GET" || String.eqb (opt_method o) "DELETE" then
         if n <? Z.of_nat (length pathParameters) + 1 then
           throw (VErr ("Expecting parameters: "
                        +:+ strip_colons (join ", " pathParameters) +:+ ""))
         else fill_from_arguments d args 0 pathParameters
       else
         missingProperties ← fill_from_payload d p [] pathParameters;
         if (0 <? length missingProperties)%nat then
           throw (VErr ("The JSON is missing the following properties: "
                        +:+ join ", " missingProperties))
         else mret tt);;
      generateAccessToken (KOperation d p this_schema (KUser callback))
  | _ => throw (VErr "Callback is required")
  end.

(** ** The event loop *)

(** A call at top level (a call of the program's user, or a handler run by
    the event loop): an exception that leaves it is uncaught. *)
Definition run (m : M unit) (st : state) : state :=
  match m st with
  | (Ret _, st') => st'
  | (Throw e, st') => snd (log_event (Uncaught e) st')
  end.

(** The transport completes the [i]-th pending call with
    [(error, response, body)], where [response.statusCode = statusCode]. *)
Definition respond (i : nat) (error : value) (statusCode : Z) (body : value) : M unit :=
  fun st =>
    match st_pending st !! i with
    | Some (_, callback) =>
        on_response callback error statusCode body
          {| st_heap := st_heap st; st_config := st_config st;
             st_options := st_options st;
             st_pending := delete i (st_pending st);
             st_log := st_log st |}
    | None => (Ret tt, st)
    end.

End RequestManager.

(** ** Instances for running the model

    A host whose functions print as an empty function and replace by the
    empty string, and a validator in the style of the specification's
    example [{required: ["name"]}]: whatever the schema, the payload must
    have a truthy [name]. *)

Definition plain_host : Host :=
  {| fn_text := fun _ => "function () {}"%string;
     fn_replacer := fun _ _ _ _ => EmptyString |}.

Definition name_required : Validation :=
  {| validate := fun h _ p =>
       if truthy (default VUndefined (get_prop h p "name")) then []
       else [ {| vpath := "name"; vmessage := "name is required" |} ];
     generateErrorMessage := fun errors => join ", " (map vmessage errors) |}.

Definition example_config (token refresh : value) : configurations :=
  {| baseUrl := "https://api.example.com"; userAgent := VStr "dx";
     clientId := VStr "id"; clientSecret := VStr "secret";
     accessToken := token; refreshToken := refresh |}.

Definition example_state (token refresh : value) (o : descriptor) : state :=
  {| st_heap := ∅; st_config := example_config token refresh;
     st_options := {[ 0%nat := o ]}; st_pending := []; st_log := [] |}.

Definition users_by_id : descriptor :=
  {| opt_path := "/users/:id"; opt_method := "GET" |}.

Definition users_list : descriptor :=
  {| opt_path := "/users"; opt_method := "GET" |}.

Definition two_placeholders : descriptor :=
  {| opt_path := "/a/:x/:y"; opt_method := "GET" |}.

(** No token yet, credentials set. *)
Definition fresh_state : state := example_state VUndefined VUndefined users_by_id.

(** Tokens stored. *)
Definition ready_state : state := example_state (VStr "tok") (VStr "ref") users_by_id.

(** No token and no client id. *)
Definition unconfigured_state : state :=
  {| st_heap := ∅;
     st_config := {| baseUrl := "https://api.example.com"; userAgent := VStr "dx";
                     clientId := VUndefined; clientSecret := VStr "secret";
                     accessToken := VUndefined; refreshToken := VUndefined |};
     st_options := {[ 0%nat := users_by_id ]}; st_pending := []; st_log := [] |}.

(** A state whose heap has the object [o] at the address 100. *)
Definition state_with_object (o : gmap string value) (st : state) : state :=
  {| st_heap := <[100%positive := o]> (st_heap st); st_config := st_config st;
     st_options := st_options st; st_pending := st_pending st;
     st_log := st_log st |}.

Definition intent_with_schema (m : string) : call_intent :=
  {| path := "/users"; method := m; payload := VObj 100%positive;
     schema := VBool true; headers := VUndefined |}.

Definition post_of_user : descriptor :=
  {| opt_path := "/users/:id/posts/:slug"; opt_method := "POST" |}.


Definition token_body : gmap string value :=
  {[ "access_token"%string := VStr "t2"; "refresh_token"%string := VStr "r2" ]}.

(** The requests that were handed to the transport, and the calls that the
    caller's functions received, oldest first. *)
Fixpoint requests_of (log : list event) : list wire_request :=
  match log with
  | [] => []
  | Requested req :: rest => req :: requests_of rest
  | _ :: rest => requests_of rest
  end.

Fixpoint calls_of (log : list event) : list (fid * value * value) :=
  match log with
  | [] => []
  | Called f err res :: rest => (f, err, res) :: calls_of rest
  | _ :: rest => calls_of rest
  end.

(** ** Vocabulary for the statements *)

(** The state after one more event. *)
Definition logged (e : event) (st : state) : state :=
  {| st_heap := st_heap st; st_config := st_config st;
     st_options := st_options st; st_pending := st_pending st;
     st_log := st_log st ++ [e] |}.

(** The state with another heap. *)
Definition with_heap (h : heap) (st : state) : state :=
  {| st_heap := h; st_config := st_config st; st_options := st_options st;
     st_pending := st_pending st; st_log := st_log st |}.

(** The value of a header of the wire request, lines 157-158. *)
Definition resolve_header (h : heap) (hs : value) (name : string) : value :=
  if truthy hs then
    let v := default VUndefined (get_prop h hs name) in
    if truthy v then v else VStr JSON_MIME_TYPE
  else VStr JSON_MIME_TYPE.

(** The path after lines 41-43: every placeholder replaced, in template
    order, by the argument of its index. *)
Fixpoint substitute `{Host} (p : string) (args : list value) (index : Z)
    (params : list string) : string :=
  match params with
  | [] => p
  | param :: rest =>
      substitute (js_replace p param (arg_at args index)) args (index + 1) rest
  end.

(** A computation that leaves every [options] object as it found it. *)
Definition keeps_options {A : Type} (m : M A) : Prop :=
  forall st : state, st_options (snd (m st)) = st_options st.

(** The names that the specification expects in the error of line 37: the
    placeholders that the [given] positional arguments do not reach. *)
Definition unfilled_names (path : string) (given : nat) : list string :=
  map strip_first_colon (drop given (path_parameters path)).

(** [callers] ask for a token one after the other, before the transport has
    answered any of them. *)
Definition call_all `{Host} `{Validation} (callers : list cont) (st : state) : state :=
  foldl (fun s k => run (generateAccessToken k) s) st callers.

(** The number of colons of a string. *)
Fixpoint count_colons (s : string) : nat :=
  match s with
  | EmptyString => 0%nat
  | String c s' => ((if Ascii.eqb c ":" then 1 else 0) + count_colons s')%nat
  end.

(** The test of line 51, negated: the payload has no truthy property for the
    placeholder [param]. *)
Definition property_missing (h : heap) (p : value) (param : string) : bool :=
  negb (truthy p
        && truthy (default VUndefined (get_prop h p (strip_first_colon param)))).

(** The [missingProperties] of lines 46-56, for a whole list of placeholders. *)
Definition missing_properties (h : heap) (p : value) (params : list string)
    : list string :=
  map strip_first_colon (List.filter (property_missing h p) params).

(** The path after lines 48-56: every placeholder that has a truthy property
    in the payload replaced by it, in template order. *)
Fixpoint substitute_payload `{Host} (h : heap) (p : value) (path : string)
    (params : list string) : string :=
  match params with
  | [] => path
  | param :: rest =>
      if property_missing h p param then substitute_payload h p path rest
      else substitute_payload h p
             (js_replace path param
                (default VUndefined (get_prop h p (strip_first_colon param))))
             rest
  end.

(** The state with other options objects. *)
Definition with_options (opts : gmap nat descriptor) (st : state) : state :=
  {| st_heap := st_heap st; st_config := st_config st; st_options := opts;
     st_pending := st_pending st; st_log := st_log st |}.

(** The function of the caller at the end of a chain of callbacks. *)
Fixpoint user_of (k : cont) : fid :=
  match k with
  | KUser f => f
  | KOperation _ _ _ callback => user_of callback
  | KAcquired callback => user_of callback
  | KRefreshed callback => user_of callback
  end.

(** Everything but the heap is as before. *)
Definition same_but_heap (st st' : state) : Prop :=
  st_config st' = st_config st /\ st_options st' = st_options st
  /\ st_pending st' = st_pending st /\ st_log st' = st_log st.


(** The request that [buildRequest] returns in the state [st], given what
    lines 163-180 chose for [qs], [json] and [form]. *)
Definition wire_of (options : call_intent) (st : state) (q j f : value)
    : wire_request :=
  {| uri := baseUrl (st_config st) +:+ path options;
     req_method := method options;
     user_agent := userAgent (st_config st);
     accept := resolve_header (st_heap st) (headers options) "accept";
     content_type := resolve_header (st_heap st) (headers options) "content-type";
     qs := q;
     json := j;
     form := f;
     strictSSL := true |}.

(** The state after [request(req, handler)], with the heap [h]. *)
Definition sent (req : wire_request) (callback : cont) (h : heap) (st : state)
    : state :=
  {| st_heap := h; st_config := st_config st; st_options := st_options st;
     st_pending := st_pending st ++ [(req, callback)];
     st_log := st_log st ++ [Requested req] |}.

(** The state once the transport has taken the [i]-th pending call back. *)
Definition answered (i : nat) (st : state) : state :=
  {| st_heap := st_heap st; st_config := st_config st;
     st_options := st_options st; st_pending := delete i (st_pending st);
     st_log := st_log st |}.

(** The callbacks that hand an error on to the caller's function as it is:
    the caller's function itself, and the closure of lines 67-79 around it. *)
Definition direct (k : cont) : bool :=
  match k with
  | KUser _ => true
  | KOperation _ _ _ (KUser _) => true
  | _ => false
  end.

(** What a call that started in [st] and ended with [r] did, [cb] being the
    callback it was given: it left the configuration alone, and it either
    threw (no event, nothing pending), or called the callback once with an
    [Error] and [null], or handed one TLS-verified request to the transport. *)
Definition one_effect (cb : value) (st : state) (r : outcome unit * state) : Prop :=
  st_config (snd r) = st_config st
  /\ ((exists e : value,
         fst r = Throw e /\ st_log (snd r) = st_log st
         /\ st_pending (snd r) = st_pending st)
      \/ (exists (f : fid) (msg : string),
            cb = VFun f /\ fst r = Ret tt
            /\ st_log (snd r) = st_log st ++ [Called f (VErr msg) VNull]
            /\ st_pending (snd r) = st_pending st)
      \/ (exists (req : wire_request) (k : cont),
            fst r = Ret tt
            /\ st_log (snd r) = st_log st ++ [Requested req]
            /\ st_pending (snd r) = st_pending st ++ [(req, k)]
            /\ strictSSL req = true)).

(** The names that a plain object inherits from [Object.prototype]. *)
Definition object_prototype_names : list string :=
  [ "constructor"; "hasOwnProperty"; "isPrototypeOf"; "propertyIsEnumerable";
    "toLocaleString"; "toString"; "valueOf"; "__proto__"; "__defineGetter__";
    "__defineSetter__"; "__lookupGetter__"; "__lookupSetter__" ]%string.

Definition inherited_name (k : string) : bool :=
  existsb (String.eqb k) object_prototype_names.

(** No placeholder of [params] is named after an inherited property: for
    these names, the own properties of a plain object are all there is to
    read. *)
Definition own_named (params : list string) : bool :=
  forallb (fun param => negb (inherited_name (strip_first_colon param))) params.

Definition is_error (v : value) : bool :=
  match v with
  | VErr _ => true
  | _ => false
  end.

(** [replace] turns [v] into text without calling anything of the caller:
    [v] is not a function (which [replace] would call as a replacer) and not
    an object with a [toString] or a [valueOf] of its own (which ToString
    would call). *)
Definition plain_text (h : heap) (v : value) : bool :=
  match v with
  | VFun _ => false
  | VObj l =>
      match h !! l with
      | Some o =>
          match o !! "toString"%string, o !! "valueOf"%string with
          | None, None => true
          | _, _ => false
          end
      | None => true
      end
  | _ => true
  end.

(** The binding of lines 48-56 stays within plain data: the payload is not
    an [Error] object, no placeholder is named after an inherited property,
    and every property that would replace a placeholder is plain text. *)
Definition plain_binding (h : heap) (p : value) (params : list string) : bool :=
  negb (is_error p) && own_named params
  && forallb (fun param =>
                plain_text h
                  (default VUndefined (get_prop h p (strip_first_colon param))))
       params.

(** * Properties *)

(** ** Running the model on small inputs *)

Example path_parameters_users :
  path_parameters "/users/:id/posts/:post_id" = [":id"; ":post_id"]%string.
Proof. reflexivity. Qed.

Example path_parameters_bar : path_parameters "/a/:x|y/b:" = [":x|y"; ":"]%string.
Proof. reflexivity. Qed.

Example js_replace_users :
  @js_replace plain_host "/users/:id" ":id" (VNum 42) = "/users/42"%string.
Proof. reflexivity. Qed.

Example js_replace_dollar :
  @js_replace plain_host "/a/:x/b" ":x" (VStr "[$&|$$|$1]") = "/a/[:x|$|$1]/b"%string.
Proof. reflexivity. Qed.

(** ** Placeholders *)

Lemma string_forallb_app (p : ascii -> bool) (s t : string) :
  string_forallb p (s +:+ t) = string_forallb p s && string_forallb p t.
Proof.
  induction s as [|c s IH]; simpl; [reflexivity|].
  rewrite IH. apply andb_assoc.
Qed.

Lemma is_match_extend (member : ascii -> bool) (m : string) (c : ascii) :
  is_match member m = true -> member c = true ->
  is_match member (m +:+ String c "") = true.
Proof.
  destruct m as [|a n]; simpl; [discriminate|].
  intros Hm Hc. apply andb_true_iff in Hm as [Ha Hn].
  rewrite Ha, string_forallb_app, Hn. simpl. rewrite Hc. reflexivity.
Qed.

Lemma scan_class_matches (member : ascii -> bool) (s : string) :
  forall cur : option string,
    (forall m, cur = Some m -> is_match member m = true) ->
    Forall (fun p => is_match member p = true) (scan_class member cur s).
Proof.
  induction s as [|c s IH]; intros cur Hcur; simpl.
  - destruct cur as [m|]; simpl; auto.
  - assert (Hopen : Forall (fun p => is_match member p = true)
                      (scan_class member (Some ":"%string) s)).
    { apply IH. intros m [= <-]. reflexivity. }
    assert (Hnone : Forall (fun p => is_match member p = true)
                      (scan_class member None s)).
    { apply IH. intros m [=]. }
    destruct cur as [m|].
    + destruct (member c) eqn:Hc.
      * apply IH. intros m' [= <-]. apply is_match_extend; auto.
      * constructor; [auto|]. destruct (Ascii.eqb c ":"); assumption.
    + destruct (Ascii.eqb c ":"); assumption.
Qed.

Lemma path_parameters_matches (path : string) :
  Forall (fun p => is_match is_param_char p = true) (path_parameters path).
Proof. apply scan_class_matches. intros m [=]. Qed.

(** Two classes that agree on the characters of a string find the same
    matches in it. *)
Lemma scan_class_ext (m1 m2 : ascii -> bool) (s : string) :
  forall cur : option string,
    string_forallb (fun c => Bool.eqb (m1 c) (m2 c)) s = true ->
    scan_class m1 cur s = scan_class m2 cur s.
Proof.
  induction s as [|c s IH]; intros cur Hs; simpl; [reflexivity|].
  simpl in Hs. apply andb_true_iff in Hs as [Hc Hs].
  apply Bool.eqb_prop in Hc. rewrite Hc.
  destruct cur as [m|]; rewrite ?IH by assumption; reflexivity.
Qed.

Lemma is_param_char_no_bar (c : ascii) :
  Ascii.eqb c "|" = false -> is_param_char c = is_name_char c.
Proof.
  intros Hc. unfold is_param_char, is_name_char. rewrite Hc.
  destruct (in_range "a" "z" c), (in_range "A" "Z" c); reflexivity.
Qed.

Lemma strip_colons_app (s t : string) :
  strip_colons (s +:+ t) = strip_colons s +:+ strip_colons t.
Proof.
  induction s as [|c s IH]; simpl; [reflexivity|].
  destruct (Ascii.eqb c ":"); simpl; rewrite IH; reflexivity.
Qed.

Lemma strip_colons_param_chars (n : string) :
  string_forallb is_param_char n = true -> strip_colons n = n.
Proof.
  induction n as [|c n IH]; simpl; [reflexivity|].
  intros Hn. apply andb_true_iff in Hn as [Hc Hn].
  destruct (Ascii.eqb c ":") eqn:E.
  - apply Ascii.eqb_eq in E. subst c. discriminate.
  - rewrite IH by assumption. reflexivity.
Qed.

Lemma strip_colons_match (p : string) :
  is_match is_param_char p = true -> strip_colons p = strip_first_colon p.
Proof.
  destruct p as [|c n]; simpl; [discriminate|].
  intros Hp. apply andb_true_iff in Hp as [Hc Hn]. rewrite Hc.
  apply strip_colons_param_chars. assumption.
Qed.

(** Removing every colon from the joined placeholders leaves the joined
    names. *)
Lemma strip_colons_join (ps : list string) :
  Forall (fun p => is_match is_param_char p = true) ps ->
  strip_colons (join ", " ps) = join ", " (map strip_first_colon ps).
Proof.
  induction 1 as [|p ps Hp Hps IH]; [reflexivity|].
  destruct ps as [|q ps].
  - simpl. apply strip_colons_match. assumption.
  - change (join ", " (p :: q :: ps)) with (p +:+ ", " +:+ join ", " (q :: ps)).
    rewrite !strip_colons_app, IH, strip_colons_match by assumption.
    reflexivity.
Qed.

(** C6, as the code has it: on a template without a vertical bar the
    placeholders extracted are exactly the matches of a colon followed by a
    (possibly empty) run of letters, underscores and hyphens, each of them a
    colon and such a run. Digits are not in the class, so a digit ends the
    name. *)
Theorem path_parameters_letters_only (path : string) :
  string_forallb (fun c => negb (Ascii.eqb c "|")) path = true ->
  path_parameters path = name_path_parameters path
  /\ Forall (fun p => is_match is_name_char p = true) (path_parameters path).
Proof.
  intros Hbar.
  assert (E : path_parameters path = name_path_parameters path).
  { apply scan_class_ext.
    induction path as [|c s IH]; simpl in *; [reflexivity|].
    apply andb_true_iff in Hbar as [Hc Hs].
    rewrite IH by assumption. rewrite andb_true_r.
    rewrite is_param_char_no_bar by (apply negb_true_iff; assumption).
    apply Bool.eqb_reflx. }
  split; [exact E|].
  rewrite E. apply scan_class_matches. intros m [=].
Qed.

Lemma path_parameters_letters_only_witness :
  path_parameters "/users/:id2/:post_id" = [":id"; ":post_id"]%string
  /\ Forall (fun p => is_match is_name_char p = true)
       (path_parameters "/users/:id2/:post_id").
Proof.
  destruct (path_parameters_letters_only "/users/:id2/:post_id" eq_refl) as [E F].
  split; [rewrite E; reflexivity | exact F].
Defined.

(** C6, as the specification words it, fails: with digits in the class,
    [:id2] would be one placeholder; the code extracts [:id]. *)
Lemma path_parameters_digit_counterexample :
  path_parameters "/users/:id2" <> spec_path_parameters "/users/:id2"
  /\ spec_path_parameters "/users/:id2" = [":id2"]%string
  /\ path_parameters "/users/:id2" = [":id"]%string.
Proof. repeat split; discriminate. Qed.

(** ** The request manager *)

Ltac munfold :=
  repeat progress
    (unfold mbind, M_bind, mret, M_ret, throw, new_object, read_prop,
       write_prop, get_heap, put_heap, get_config, update_config, log_event,
       read_options, write_options_path, request in *;
     cbv beta).

Section Properties.
Context `{Host} `{Validation}.

(** Delivering an [Error] never reaches the transport: every closure of the
    file hands an error on (wrapped or not), down to the caller's function. *)
Lemma apply_cont_error (k : cont) :
  forall (msg : string) (st : state),
    exists (f : fid) (msg' : string),
      apply_cont k (VErr msg) VNull st
      = (Ret tt, logged (Called f (VErr msg') VNull) st).
Proof.
  induction k as [f|d p s k IH|k IH|k IH]; intros msg st; simpl.
  - exists f, msg. reflexivity.
  - apply IH.
  - munfold. simpl. apply IH.
  - munfold. simpl. apply IH.
Qed.

Lemma header_or_json_ret (hs : value) (name : string) (st : state) :
  header_or_json hs name st = (Ret (resolve_header (st_heap st) hs name), st).
Proof.
  unfold header_or_json, resolve_header.
  destruct (truthy hs) eqn:Hhs; [|reflexivity].
  munfold. destruct hs; try discriminate; reflexivity.
Qed.

(** C5: with a last argument that is absent or not a function, the call
    throws "Callback is required" at once and leaves the whole state (heap,
    configuration, options, pending transport calls, event log) as it was. *)
Theorem describe_requires_callback (d : nat) (this_schema : value)
    (args : list value) (st : state) :
  typeof (arg_at args (Z.of_nat (length args) - 1)) <> "function"%string ->
  describe d this_schema args st = (Throw (VErr "Callback is required"), st).
Proof.
  intros Hcb. unfold describe.
  destruct (arg_at args (Z.of_nat (length args) - 1)); try reflexivity.
  contradiction Hcb. reflexivity.
Qed.

(** C8: when the store holds a (truthy) access token, [generateAccessToken]
    does nothing but hand that token to its callback; when it holds none and
    the client id or the client secret is missing, it does nothing but hand
    the configuration error to its callback, and the transport is not
    called: the pending calls and the requests of the log are unchanged. *)
Theorem generateAccessToken_without_network (callback : cont) (st : state) :
  (truthy (accessToken (st_config st)) = true ->
   generateAccessToken callback st
   = apply_cont callback VNull (accessToken (st_config st)) st)
  /\ (truthy (accessToken (st_config st)) = false ->
      truthy (clientId (st_config st)) = false
      \/ truthy (clientSecret (st_config st)) = false ->
      generateAccessToken callback st
      = apply_cont callback (VErr "Must set client_id and client_secret") VNull st
      /\ st_pending (snd (generateAccessToken callback st)) = st_pending st
      /\ requests_of (st_log (snd (generateAccessToken callback st)))
         = requests_of (st_log st)).
Proof.
  split.
  - intros Htok. unfold generateAccessToken. munfold. rewrite Htok. reflexivity.
  - intros Htok Hcred.
    assert (E : generateAccessToken callback st
                = apply_cont callback (VErr "Must set client_id and client_secret") VNull st).
    { unfold generateAccessToken. munfold. rewrite Htok.
      destruct Hcred as [-> | ->]; simpl; rewrite ?orb_true_r; reflexivity. }
    split; [exact E|]. rewrite E.
    destruct (apply_cont_error callback "Must set client_id and client_secret" st)
      as (f & msg' & ->).
    simpl. split; [reflexivity|].
    induction (st_log st) as [|e log IH]; simpl; [reflexivity|].
    destruct e; simpl; rewrite ?IH; reflexivity.
Qed.

(** C10: for a GET call intent whose payload is an object of the heap,
    [buildRequest] succeeds, the query string of the request is that very
    object (the same reference), and the object has gained [access_token],
    equal to the stored access token; its other properties are as before. *)
Theorem buildRequest_get_aliases_payload (options : call_intent) (st : state)
    (l : loc) (o : gmap string value) :
  method options = "GET"%string ->
  payload options = VObj l ->
  st_heap st !! l = Some o ->
  exists (req : wire_request) (st' : state),
    buildRequest options st = (Ret req, st')
    /\ qs req = VObj l
    /\ st_heap st' !! l
       = Some (<["access_token"%string := accessToken (st_config st)]> o).
Proof.
  intros Hm Hp Hl. unfold buildRequest.
  unfold mbind at 1, M_bind at 1. unfold get_config at 1.
  unfold mbind at 1, M_bind at 1. rewrite header_or_json_ret.
  unfold mbind at 1, M_bind at 1. rewrite header_or_json_ret.
  rewrite Hm, Hp. munfold. simpl.
  eexists _, _. split; [reflexivity|]. simpl. split; [reflexivity|].
  assert (Hne : fresh (dom (st_heap st)) <> l).
  { intros <-. apply (is_fresh (dom (st_heap st))).
    apply elem_of_dom. rewrite Hl. eauto. }
  rewrite lookup_insert_eq, lookup_insert_ne, Hl by assumption.
  reflexivity.
Qed.


Lemma requests_of_app (l1 l2 : list event) :
  requests_of (l1 ++ l2) = requests_of l1 ++ requests_of l2.
Proof.
  induction l1 as [|e l1 IH]; simpl; [reflexivity|].
  destruct e; simpl; rewrite IH; reflexivity.
Qed.



(** C7, as the code has it: for a method other than GET and a JSON
    content type, a truthy schema and a payload with validation errors make
    [exec] hand to its callback an [Error] whose message is the validator's
    message for the whole list of errors; the transport is not called. *)
Theorem exec_rejects_invalid_payload (options : call_intent) (callback : cont)
    (st : state) :
  String.eqb (method options) "GET" = false ->
  loose_eq_str (resolve_header (st_heap st) (headers options) "content-type")
    JSON_MIME_TYPE = true ->
  truthy (schema options) = true ->
  let h1 := snd (alloc ∅ (st_heap st)) in
  let errors := validate h1 (schema options) (payload options) in
  errors <> [] ->
  exec options callback st
  = apply_cont callback (VErr (generateErrorMessage errors)) VNull (with_heap h1 st)
  /\ st_pending (snd (exec options callback st)) = st_pending st
  /\ requests_of (st_log (snd (exec options callback st))) = requests_of (st_log st).
Proof.
  intros Hm Hct Hs h1 errors Herrors.
  unfold alloc in h1. simpl in h1. subst errors h1.
  set (h1 := <[fresh (dom (st_heap st)) := ∅]> (st_heap st)) in *.
  set (errors := validate h1 (schema options) (payload options)) in *.
  assert (E : exec options callback st
              = apply_cont callback (VErr (generateErrorMessage errors)) VNull
                  (with_heap h1 st)).
  { unfold exec, exec_with, buildRequest.
    unfold mbind at 1, M_bind at 1. unfold get_config at 1.
    unfold mbind at 1, M_bind at 1. rewrite header_or_json_ret.
    unfold mbind at 1, M_bind at 1. rewrite header_or_json_ret.
    rewrite Hm. simpl st_heap. rewrite Hct.
    unfold check_schema. rewrite Hs. munfold. simpl.
    fold h1. fold errors.
    destruct errors as [|e errors']; [contradiction|]. reflexivity. }
  split; [exact E|]. rewrite E.
  destruct (apply_cont_error callback (generateErrorMessage errors) (with_heap h1 st))
    as (f & msg' & ->).
  simpl. split; [reflexivity|].
  rewrite requests_of_app. simpl. apply app_nil_r.
Qed.


(** *** What leaves the options alone *)

Lemma keeps_ret {A : Type} (a : A) : keeps_options (mret a).
Proof. intros st. reflexivity. Qed.

Lemma keeps_throw {A : Type} (e : value) : keeps_options (@throw A e).
Proof. intros st. reflexivity. Qed.

Lemma keeps_bind {A B : Type} (m : M A) (k : A -> M B) :
  keeps_options m -> (forall a, keeps_options (k a)) -> keeps_options (m ≫= k).
Proof.
  intros Hm Hk st. unfold mbind, M_bind. specialize (Hm st).
  destruct (m st) as [[a|e] st']; simpl in *; [|assumption].
  rewrite Hk. assumption.
Qed.

Lemma keeps_get_heap : keeps_options get_heap.
Proof. intros st. reflexivity. Qed.

Lemma keeps_put_heap (h : heap) : keeps_options (put_heap h).
Proof. intros st. reflexivity. Qed.

Lemma keeps_get_config : keeps_options get_config.
Proof. intros st. reflexivity. Qed.

Lemma keeps_update_config (f : configurations -> configurations) :
  keeps_options (update_config f).
Proof. intros st. reflexivity. Qed.

Lemma keeps_log_event (e : event) : keeps_options (log_event e).
Proof. intros st. reflexivity. Qed.

Lemma keeps_request (req : wire_request) (k : cont) : keeps_options (request req k).
Proof. intros st. reflexivity. Qed.

Lemma keeps_read_options (d : nat) : keeps_options (read_options d).
Proof. intros st. unfold read_options. destruct (st_options st !! d); reflexivity. Qed.

Create HintDb keeps.
#[local] Hint Resolve keeps_ret keeps_throw keeps_get_heap keeps_put_heap
  keeps_get_config keeps_update_config keeps_log_event keeps_request
  keeps_read_options : keeps.

Ltac keeps_step :=
  first
    [ solve [auto with keeps]
    | apply keeps_bind; [|intros ?]
    | match goal with
      | |- keeps_options (if ?b then _ else _) => destruct b
      | |- keeps_options (match ?x with _ => _ end) => destruct x
      end ].

Ltac keeps := repeat keeps_step.

Lemma keeps_new_object (o : gmap string value) : keeps_options (new_object o).
Proof. unfold new_object. keeps. Qed.

Lemma keeps_read_prop (v : value) (k : string) : keeps_options (read_prop v k).
Proof. unfold read_prop. keeps. Qed.

Lemma keeps_write_prop (v : value) (k : string) (x : value) :
  keeps_options (write_prop v k x).
Proof. unfold write_prop. keeps. Qed.

#[local] Hint Resolve keeps_new_object keeps_read_prop keeps_write_prop : keeps.

Lemma keeps_buildRequest (options : call_intent) : keeps_options (buildRequest options).
Proof. unfold buildRequest, header_or_json, check_schema. keeps. Qed.

Lemma keeps_exec_with (deliver : cont -> value -> value -> M unit)
    (options : call_intent) (callback : cont) :
  (forall e r, keeps_options (deliver callback e r)) ->
  keeps_options (exec_with deliver options callback).
Proof.
  intros Hd st. unfold exec_with.
  pose proof (keeps_buildRequest options st) as Hb.
  destruct (buildRequest options st) as [[req|e] st']; simpl in Hb.
  - rewrite keeps_request. assumption.
  - rewrite Hd. assumption.
Qed.

Lemma keeps_store_tokens (response : value) : keeps_options (store_tokens response).
Proof. unfold store_tokens. keeps. Qed.

#[local] Hint Resolve keeps_buildRequest keeps_store_tokens : keeps.

Lemma keeps_apply_cont (k : cont) :
  forall err res : value, keeps_options (apply_cont k err res).
Proof.
  induction k as [f|d p s k IH|k IH|k IH]; intros err res; simpl.
  - keeps.
  - destruct (truthy err); [apply IH|].
    apply keeps_bind; [auto with keeps|]. intros o.
    apply keeps_exec_with. assumption.
  - destruct (truthy err); keeps; apply IH.
  - destruct (truthy err); keeps; apply IH.
Qed.

Lemma keeps_generateAccessToken (callback : cont) :
  keeps_options (generateAccessToken callback).
Proof.
  unfold generateAccessToken.
  apply keeps_bind; [auto with keeps|]. intros cfg.
  destruct (truthy (accessToken cfg)); [apply keeps_apply_cont|].
  destruct (negb (truthy (clientId cfg)) || negb (truthy (clientSecret cfg)));
    [apply keeps_apply_cont|].
  apply keeps_bind; [auto with keeps|]. intros p.
  apply keeps_exec_with. intros e r. apply keeps_apply_cont.
Qed.


(** *** Argument binding *)

Lemma append_empty_r (s : string) : s +:+ "" = s.
Proof.
  induction s as [|c s IH]; [reflexivity|].
  change (String c (s +:+ "") = String c s). f_equal. exact IH.
Qed.

(** C3, as the code has it: for GET and DELETE, a call with a callback and
    fewer positional arguments than placeholders throws "Expecting
    parameters: " followed by the names of all the placeholders of the
    template (colon stripped, in template order, separated by ", "); the
    configuration, the options, the pending transport calls and the event log
    are as before, so neither the token manager nor the transport was
    reached. *)
Theorem describe_expecting_parameters (d : nat) (this_schema : value)
    (args : list value) (st : state) (o : descriptor) (f : fid) :
  st_options st !! d = Some o ->
  opt_method o = "GET"%string \/ opt_method o = "DELETE"%string ->
  arg_at args (Z.of_nat (length args) - 1) = VFun f ->
  Z.of_nat (length args) - 1 < Z.of_nat (length (path_parameters (opt_path o))) ->
  exists st' : state,
    describe d this_schema args st
    = (Throw (VErr ("Expecting parameters: "
                    +:+ join ", " (map strip_first_colon (path_parameters (opt_path o))))),
       st')
    /\ st_config st' = st_config st
    /\ st_options st' = st_options st
    /\ st_pending st' = st_pending st
    /\ st_log st' = st_log st.
Proof.
  intros Ho Hm Hcb Hfew. unfold describe. rewrite Hcb.
  assert (Em : String.eqb (opt_method o) "GET" || String.eqb (opt_method o) "DELETE" = true).
  { destruct Hm as [-> | ->]; reflexivity. }
  assert (Ef : (Z.of_nat (length args) <? Z.of_nat (length (path_parameters (opt_path o))) + 1) = true).
  { apply Z.ltb_lt. lia. }
  rewrite <- strip_colons_join by apply path_parameters_matches.
  munfold. rewrite Ho, Em, Ef, append_empty_r.
  destruct (String.eqb (typeof (arg_at args (Z.of_nat (length args) - 2))) "object");
    simpl; eexists; (split; [reflexivity|]); simpl; auto.
Qed.

Lemma fill_from_arguments_path (d : nat) (args : list value) (params : list string) :
  forall (index : Z) (st : state) (o : descriptor),
    st_options st !! d = Some o ->
    exists st' : state,
      fill_from_arguments d args index params st = (Ret tt, st')
      /\ st_options st' !! d
         = Some {| opt_path := substitute (opt_path o) args index params;
                   opt_method := opt_method o |}.
Proof.
  induction params as [|param rest IH]; intros index st o Ho; simpl.
  - exists st. split; [reflexivity|]. rewrite Ho. destruct o; reflexivity.
  - munfold. rewrite Ho.
    match goal with
    | |- context [fill_from_arguments d args (index + 1) rest ?s] =>
        destruct (IH (index + 1) s
                    {| opt_path := js_replace (opt_path o) param (arg_at args index);
                       opt_method := opt_method o |}) as (st' & E & Hst')
    end.
    { simpl. rewrite lookup_alter_eq, Ho. reflexivity. }
    exists st'. split; assumption.
Qed.

(** What lines 41-43 leave in the options: a call on a template without
    placeholder leaves the [path] field alone; a GET or DELETE call with a
    callback and enough positional arguments assigns the substituted path to
    it, each placeholder replaced in template order by the argument of its
    index. *)
Lemma describe_substitutes_in_place (d : nat) (this_schema : value)
    (args : list value) (st : state) (o : descriptor) :
  st_options st !! d = Some o ->
  (path_parameters (opt_path o) = [] ->
   st_options (snd (describe d this_schema args st)) = st_options st)
  /\ (opt_method o = "GET"%string \/ opt_method o = "DELETE"%string ->
      (exists f : fid, arg_at args (Z.of_nat (length args) - 1) = VFun f) ->
      Z.of_nat (length (path_parameters (opt_path o))) <= Z.of_nat (length args) - 1 ->
      st_options (snd (describe d this_schema args st)) !! d
      = Some {| opt_path := substitute (opt_path o) args 0 (path_parameters (opt_path o));
                opt_method := opt_method o |}).
Proof.
  intros Ho. split.
  - intros Hnone. unfold describe.
    destruct (arg_at args (Z.of_nat (length args) - 1)); try reflexivity.
    munfold. rewrite Ho, Hnone. simpl. munfold.
    repeat match goal with
           | |- context [if ?b then _ else _] => destruct b; simpl
           end;
      try reflexivity; rewrite keeps_generateAccessToken; reflexivity.
  - intros Hm (f & Hcb) Henough. unfold describe. rewrite Hcb.
    assert (Em : String.eqb (opt_method o) "GET" || String.eqb (opt_method o) "DELETE" = true).
    { destruct Hm as [-> | ->]; reflexivity. }
    assert (Ef : (Z.of_nat (length args) <? Z.of_nat (length (path_parameters (opt_path o))) + 1) = false).
    { apply Z.ltb_ge. lia. }
    munfold. rewrite Ho, Em, Ef.
    destruct (String.eqb (typeof (arg_at args (Z.of_nat (length args) - 2))) "object");
      simpl;
      match goal with
      | |- context [fill_from_arguments d args 0 ?ps ?s] =>
          destruct (fill_from_arguments_path d args ps 0 s o Ho) as (st' & -> & Hst')
      end;
      rewrite keeps_generateAccessToken; assumption.
Qed.


(** *** The token manager *)

(** Without a stored token and with both credentials, a call of
    [generateAccessToken] hands one client-credentials exchange to the
    transport, with its own callback waiting for the answer. *)
Lemma generateAccessToken_exchange (callback : cont) (st : state) :
  truthy (accessToken (st_config st)) = false ->
  truthy (clientId (st_config st)) = true ->
  truthy (clientSecret (st_config st)) = true ->
  exists (req : wire_request) (h' : heap),
    generateAccessToken callback st
    = (Ret tt, {| st_heap := h'; st_config := st_config st;
                  st_options := st_options st;
                  st_pending := st_pending st ++ [(req, KAcquired callback)];
                  st_log := st_log st ++ [Requested req] |})
    /\ uri req = baseUrl (st_config st) +:+ "/oauth/token"
    /\ req_method req = "POST"%string
    /\ exists l : loc,
         json req = VObj l
         /\ h' !! l = Some {[ "client_id"%string := clientId (st_config st);
                              "client_secret"%string := clientSecret (st_config st);
                              "grant_type"%string := VStr "client_credentials" ]}.
Proof.
  intros Htok Hid Hsecret.
  unfold generateAccessToken, exec, exec_with, buildRequest, header_or_json,
    check_schema, alloc.
  munfold. rewrite Htok, Hid, Hsecret. simpl.
  eexists _, _. split; [reflexivity|]. simpl.
  split; [reflexivity|]. split; [reflexivity|].
  eexists. split; [reflexivity|].
  set (p := fresh (dom (st_heap st))).
  match goal with
  | |- <[?q := _]> _ !! _ = _ => assert (Hne : q <> p)
  end.
  { intros E.
    match type of E with fresh ?X = _ => apply (is_fresh X) end.
    rewrite E. apply elem_of_dom. rewrite lookup_insert_eq. eauto. }
  rewrite !lookup_insert_ne by assumption.
  apply lookup_insert_eq.
Qed.

(** Storing the tokens of a successful response [{status, body}]. *)
Lemma store_tokens_response (r b : loc) (status : value) (body : gmap string value)
    (st : state) :
  st_heap st !! r = Some {[ "status"%string := status; "body"%string := VObj b ]} ->
  st_heap st !! b = Some body ->
  store_tokens (VObj r) st
  = (Ret (default VUndefined (body !! "access_token"%string)),
     {| st_heap := st_heap st;
        st_config :=
          setRefreshToken (default VUndefined (body !! "refresh_token"%string))
            (setAccessToken (default VUndefined (body !! "access_token"%string))
               (st_config st));
        st_options := st_options st; st_pending := st_pending st;
        st_log := st_log st |}).
Proof.
  intros Hr Hb.
  assert (Hbody : ({[ "status"%string := status; "body"%string := VObj b ]}
                     : gmap string value) !! "body"%string = Some (VObj b)).
  { rewrite lookup_insert_ne by discriminate. apply lookup_singleton_eq. }
  unfold store_tokens. munfold. simpl.
  repeat (first [rewrite Hr | rewrite Hbody | rewrite Hb]; simpl).
  reflexivity.
Qed.


(** Without a stored refresh token, [refreshAccessToken] does nothing but
    hand its error to the callback. *)
Lemma refreshAccessToken_requires_refresh_token (callback : cont) (st : state) :
  truthy (refreshToken (st_config st)) = false ->
  refreshAccessToken callback st
  = apply_cont callback
      (VErr "You need the refresh_token to refresh the access_token") VNull st.
Proof.
  intros Hrt. unfold refreshAccessToken. munfold. rewrite Hrt. reflexivity.
Qed.

(** ** More of the request manager *)

(** *** Placeholders and payload properties *)

Lemma scan_class_length (member : ascii -> bool) (s : string) :
  member ":"%char = false ->
  forall cur : option string,
    length (scan_class member cur s)
    = (length (close_match cur) + count_colons s)%nat.
Proof.
  intros Hcolon. induction s as [|c s IH]; intros cur; simpl.
  - rewrite Nat.add_0_r. reflexivity.
  - destruct (Ascii.eqb c ":") eqn:Ec.
    + apply Ascii.eqb_eq in Ec. subst c. rewrite Hcolon.
      destruct cur as [m|]; simpl; rewrite IH; reflexivity.
    + destruct cur as [m|]; [destruct (member c)|]; simpl; rewrite IH; reflexivity.
Qed.

(** Every colon of the template opens a placeholder: there are as many
    placeholders as colons. *)
Theorem path_parameters_count_colons (path : string) :
  length (path_parameters path) = count_colons path.
Proof. apply (scan_class_length is_param_char path eq_refl None). Qed.

Lemma fill_from_arguments_state (d : nat) (args : list value) (params : list string) :
  forall (index : Z) (st : state) (o : descriptor),
    st_options st !! d = Some o ->
    exists opts : gmap nat descriptor,
      fill_from_arguments d args index params st = (Ret tt, with_options opts st)
      /\ opts !! d
         = Some {| opt_path := substitute (opt_path o) args index params;
                   opt_method := opt_method o |}.
Proof.
  induction params as [|param rest IH]; intros index st o Ho; simpl.
  - exists (st_options st). split; [destruct st; reflexivity|].
    rewrite Ho. destruct o; reflexivity.
  - munfold. rewrite Ho.
    match goal with
    | |- context [fill_from_arguments d args (index + 1) rest ?s] =>
        destruct (IH (index + 1) s
                    {| opt_path := js_replace (opt_path o) param (arg_at args index);
                       opt_method := opt_method o |}) as (opts & E & Hopts)
    end.
    { simpl. rewrite lookup_alter_eq, Ho. reflexivity. }
    exists opts. split; [rewrite E; reflexivity | assumption].
Qed.

Lemma fill_from_payload_state (d : nat) (p : value) (params : list string) :
  forall (missing : list string) (st : state) (o : descriptor),
    st_options st !! d = Some o ->
    exists opts : gmap nat descriptor,
      fill_from_payload d p missing params st
      = (Ret (missing ++ missing_properties (st_heap st) p params),
         with_options opts st)
      /\ opts !! d
         = Some {| opt_path := substitute_payload (st_heap st) p (opt_path o) params;
                   opt_method := opt_method o |}.
Proof.
  induction params as [|param rest IH]; intros missing st o Ho.
  - exists (st_options st). simpl. unfold missing_properties. simpl.
    rewrite app_nil_r. split; [destruct st; reflexivity|].
    rewrite Ho. destruct o; reflexivity.
  - assert (Hfound :
      (if truthy p
       then v ← read_prop p (strip_first_colon param); mret (truthy v)
       else mret false) st
      = (Ret (negb (property_missing (st_heap st) p param)), st)).
    { unfold property_missing. destruct (truthy p) eqn:Hp; [|reflexivity].
      rewrite andb_true_l, negb_involutive.
      munfold. destruct p; try discriminate; reflexivity. }
    simpl fill_from_payload. unfold mbind at 1, M_bind at 1. rewrite Hfound.
    unfold missing_properties. simpl List.filter. simpl substitute_payload.
    destruct (property_missing (st_heap st) p param) eqn:Hmiss; cbn [negb].
    + destruct (IH (missing ++ [strip_first_colon param]) st o Ho) as (opts & E & Hopts).
      exists opts. rewrite E. unfold missing_properties.
      simpl. rewrite <- app_assoc. split; [reflexivity | assumption].
    + assert (Hv : read_prop p (strip_first_colon param) st
                   = (Ret (default VUndefined
                             (get_prop (st_heap st) p (strip_first_colon param))), st)).
      { unfold property_missing in Hmiss. apply negb_false_iff in Hmiss.
        apply andb_true_iff in Hmiss as [Hp _].
        munfold. destruct p; try discriminate; reflexivity. }
      unfold mbind at 1, M_bind at 1. unfold read_options at 1. rewrite Ho.
      unfold mbind at 1, M_bind at 1. rewrite Hv.
      unfold mbind at 1, M_bind at 1. unfold write_options_path at 1.
      match goal with
      | |- context [fill_from_payload d p missing rest ?s] =>
          destruct (IH missing s
                      {| opt_path :=
                           js_replace (opt_path o) param
                             (default VUndefined
                                (get_prop (st_heap st) p (strip_first_colon param)));
                         opt_method := opt_method o |}) as (opts & E & Hopts)
      end.
      { simpl. rewrite lookup_alter_eq, Ho. reflexivity. }
      exists opts. rewrite E. split; [reflexivity | assumption].
Qed.

(** *** Building and sending *)

Lemma apply_cont_error_user (k : cont) :
  forall (msg : string) (st : state),
    exists msg' : string,
      apply_cont k (VErr msg) VNull st
      = (Ret tt, logged (Called (user_of k) (VErr msg') VNull) st).
Proof.
  induction k as [f|d p s k IH|k IH|k IH]; intros msg st; simpl.
  - exists msg. reflexivity.
  - apply IH.
  - munfold. simpl. apply IH.
  - munfold. simpl. apply IH.
Qed.

Lemma fresh_not_allocated (h : heap) : h !! fresh (dom h) = None.
Proof. apply not_elem_of_dom. apply is_fresh. Qed.

Lemma buildRequest_get_object (options : call_intent) (st : state) (l : loc) :
  method options = "GET"%string ->
  payload options = VObj l ->
  let h1 := <[fresh (dom (st_heap st)) := ∅]> (st_heap st) in
  buildRequest options st
  = (Ret (wire_of options st (VObj l) (VBool true) VUndefined),
     with_heap (<[l := <["access_token"%string := accessToken (st_config st)]>
                          (default ∅ (h1 !! l))]> h1) st).
Proof.
  intros Hm Hp h1.
  assert (Hget : String.eqb (method options) "GET" = true)
    by (rewrite Hm; reflexivity).
  unfold buildRequest.
  unfold mbind at 1, M_bind at 1. unfold get_config at 1.
  unfold mbind at 1, M_bind at 1. rewrite header_or_json_ret.
  unfold mbind at 1, M_bind at 1. rewrite header_or_json_ret.
  rewrite Hget, Hp. munfold. simpl. reflexivity.
Qed.

(** A request with a body and the JSON content type, when there is no
    schema or the validator finds nothing: the payload is the JSON body, the
    query string is a fresh object that holds the access token only, and no
    object that existed before is touched. *)
Theorem buildRequest_json_body (options : call_intent) (st : state) :
  String.eqb (method options) "GET" = false ->
  loose_eq_str (resolve_header (st_heap st) (headers options) "content-type")
    JSON_MIME_TYPE = true ->
  truthy (schema options) = false
  \/ validate (<[fresh (dom (st_heap st)) := ∅]> (st_heap st))
       (schema options) (payload options) = [] ->
  let q := fresh (dom (st_heap st)) in
  let h' := <[q := {[ "access_token"%string := accessToken (st_config st) ]}]>
              (st_heap st) in
  buildRequest options st
  = (Ret (wire_of options st (VObj q) (payload options) VUndefined), with_heap h' st)
  /\ st_heap st ⊆ h'.
Proof.
  intros Hm Hct Hvalid q h'. split.
  - unfold buildRequest.
    unfold mbind at 1, M_bind at 1. unfold get_config at 1.
    unfold mbind at 1, M_bind at 1. rewrite header_or_json_ret.
    unfold mbind at 1, M_bind at 1. rewrite header_or_json_ret.
    rewrite Hm. simpl st_heap. rewrite Hct.
    unfold check_schema, alloc. munfold. simpl.
    subst q h'.
    destruct (truthy (schema options)) eqn:Hs; simpl.
    + destruct Hvalid as [Hno | Hnone]; [discriminate|].
      rewrite Hnone. simpl. rewrite lookup_insert_eq. simpl.
      rewrite insert_insert_eq, insert_empty. reflexivity.
    + rewrite lookup_insert_eq. simpl.
      rewrite insert_insert_eq, insert_empty. reflexivity.
  - apply insert_subseteq. apply fresh_not_allocated.
Qed.


Lemma buildRequest_cases (options : call_intent) (st : state) :
  exists h' : heap,
    (exists q j f : value,
       buildRequest options st = (Ret (wire_of options st q j f), with_heap h' st))
    \/ (exists msg : string,
          buildRequest options st = (Throw (VErr msg), with_heap h' st)).
Proof.
  remember (buildRequest options st) as r eqn:Hr.
  unfold buildRequest in Hr.
  unfold mbind at 1, M_bind at 1 in Hr. unfold get_config at 1 in Hr.
  unfold mbind at 1, M_bind at 1 in Hr. rewrite header_or_json_ret in Hr.
  unfold mbind at 1, M_bind at 1 in Hr. rewrite header_or_json_ret in Hr.
  unfold check_schema, alloc, type_error in Hr. munfold. simpl in Hr.
  destruct (String.eqb (method options) "GET").
  - destruct (payload options); simpl in Hr; subst r; eexists;
      first [ left; eexists _, _, _; reflexivity | right; eexists; reflexivity ].
  - destruct (loose_eq_str _ JSON_MIME_TYPE); [destruct (truthy (schema options))|];
      simpl in Hr;
      try match type of Hr with
          | context [(0 <? ?n)%nat] => destruct (0 <? n)%nat
          end;
      simpl in Hr; subst r; eexists;
      first [ left; eexists _, _, _; reflexivity | right; eexists; reflexivity ].
Qed.

Lemma exec_cases (options : call_intent) (k : cont) (st : state) :
  exists h' : heap,
    (exists q j f : value,
       exec options k st = (Ret tt, sent (wire_of options st q j f) k h' st))
    \/ (exists msg : string,
          exec options k st
          = (Ret tt, logged (Called (user_of k) (VErr msg) VNull) (with_heap h' st))).
Proof.
  destruct (buildRequest_cases options st) as (h' & [(q & j & f & E) | (msg & E)]);
    exists h'; unfold exec, exec_with; rewrite E.
  - left. exists q, j, f. reflexivity.
  - right. destruct (apply_cont_error_user k msg (with_heap h' st)) as (msg' & ->).
    exists msg'. reflexivity.
Qed.

(** [exec] never throws. Either it hands exactly one request to the
    transport, built from the intent, verified by TLS, with its callback
    waiting and nobody called; or the request could not be built, nothing is
    sent, and the caller's function is called once with an [Error]. *)
Theorem exec_sends_or_reports (options : call_intent) (k : cont) (st : state) :
  exists h' : heap,
    (exists q j f : value,
       exec options k st = (Ret tt, sent (wire_of options st q j f) k h' st))
    \/ (exists msg : string,
          exec options k st
          = (Ret tt, logged (Called (user_of k) (VErr msg) VNull) (with_heap h' st))).
Proof. exact (exec_cases options k st). Qed.


(** *** Answers to the token exchanges *)

Lemma apply_cont_direct_error (k : cont) (e : value) (st : state) :
  direct k = true -> truthy e = true ->
  apply_cont k e VNull st = (Ret tt, logged (Called (user_of k) e VNull) st).
Proof.
  intros Hk He. destruct k as [f|d p s [f| | |]| |]; try discriminate; simpl.
  - reflexivity.
  - rewrite He. reflexivity.
Qed.


(** With a stored refresh token, [refreshAccessToken] hands exactly one
    request to the transport: a POST to [/oauth/token] whose JSON body is a
    fresh object with [grant_type] "refresh_token" and the current access
    token under [client_secret]. Its callback waits; the stored tokens are
    not touched before the answer. *)
Theorem refreshAccessToken_request (callback : cont) (st : state) :
  truthy (refreshToken (st_config st)) = true ->
  exists (req : wire_request) (h' : heap) (l : loc),
    refreshAccessToken callback st = (Ret tt, sent req (KRefreshed callback) h' st)
    /\ uri req = baseUrl (st_config st) +:+ "/oauth/token"
    /\ req_method req = "POST"%string
    /\ json req = VObj l
    /\ h' !! l = Some {[ "client_secret"%string := accessToken (st_config st);
                         "grant_type"%string := VStr "refresh_token" ]}
    /\ st_heap st ⊆ h'.
Proof.
  intros Hrt.
  unfold refreshAccessToken, exec, exec_with, buildRequest, header_or_json,
    check_schema, alloc.
  munfold. rewrite Hrt. simpl.
  eexists _, _, _. split; [reflexivity|]. simpl.
  split; [reflexivity|]. split; [reflexivity|]. split; [reflexivity|].
  set (p := fresh (dom (st_heap st))).
  set (h0 := <[p := _]> (st_heap st)).
  assert (Hp : st_heap st !! p = None) by apply fresh_not_allocated.
  assert (Hq : h0 !! fresh (dom h0) = None) by apply fresh_not_allocated.
  assert (Hne : fresh (dom h0) <> p).
  { intros E. rewrite E in Hq. unfold h0 in Hq. rewrite lookup_insert_eq in Hq.
    discriminate. }
  split.
  - rewrite !lookup_insert_ne by assumption. apply lookup_insert_eq.
  - rewrite insert_insert_eq.
    etransitivity; [apply (insert_subseteq _ p); exact Hp|].
    apply insert_subseteq. exact Hq.
Qed.

(** The answer to a refresh exchange that a caller's function waits for. A
    2xx response whose body is an object replaces both stored tokens by the
    body's [access_token] and [refresh_token] and hands the new access token
    to the function; a transport error is handed on as "Error refreshing
    previous access_token: " and its message, and the stored tokens stay. *)
Theorem respond_refresh (i : nat) (req : wire_request) (f : fid)
    (error : value) (statusCode : Z) (b : loc) (body : gmap string value)
    (st : state) :
  st_pending st !! i = Some (req, KRefreshed (KUser f)) ->
  (truthy error = false -> 200 <= statusCode < 300 ->
   st_heap st !! b = Some body ->
   let st' := run (respond i error statusCode (VObj b)) st in
   let token := default VUndefined (body !! "access_token"%string) in
   st_log st' = st_log st ++ [Called f VNull token]
   /\ accessToken (st_config st') = token
   /\ refreshToken (st_config st')
      = default VUndefined (body !! "refresh_token"%string)
   /\ st_pending st' = delete i (st_pending st))
  /\ (truthy error = true ->
      forall m : value,
        get_prop (st_heap st) error "message" = Some m ->
        run (respond i error statusCode (VObj b)) st
        = logged (Called f
                    (VErr ("Error refreshing previous access_token: "
                           +:+ to_string m)) VNull)
            (answered i st)).
Proof.
  intros Hi. unfold run, respond. rewrite Hi.
  unfold on_response, on_response_with. split.
  - intros Herr Hs Hb. cbv zeta. rewrite Herr.
    assert (E : (statusCode <? 200) || (300 <=? statusCode) = false).
    { apply orb_false_iff. split; [apply Z.ltb_ge | apply Z.leb_gt]; lia. }
    assert (Hne : fresh (dom (st_heap st)) <> b).
    { intros <-. rewrite fresh_not_allocated in Hb. discriminate. }
    rewrite E. unfold alloc. munfold. simpl. munfold.
    erewrite store_tokens_response;
      [| simpl; apply lookup_insert_eq
       | simpl; rewrite lookup_insert_ne by assumption; exact Hb ].
    simpl. auto.
  - intros Herr m Hm. rewrite Herr. simpl. rewrite Herr. munfold.
    simpl. rewrite Hm. reflexivity.
Qed.

(** *** Operations from the call to the request *)

Lemma generateAccessToken_with_token (callback : cont) (st : state) :
  truthy (accessToken (st_config st)) = true ->
  generateAccessToken callback st
  = apply_cont callback VNull (accessToken (st_config st)) st.
Proof.
  intros Htok. unfold generateAccessToken. munfold. rewrite Htok. reflexivity.
Qed.

Lemma apply_cont_operation (d : nat) (p s res : value) (k : cont) (o : descriptor)
    (st : state) :
  st_options st !! d = Some o ->
  apply_cont (KOperation d p s k) VNull res st
  = exec {| path := opt_path o; method := opt_method o; payload := p;
            schema := s; headers := VUndefined |} k st.
Proof.
  intros Ho. simpl. munfold. rewrite Ho. reflexivity.
Qed.


(** When the transport answers the exchange that a GET operation waits for
    with a 2xx response whose body is an object, the tokens of the body are
    stored and the request of the operation goes out at once: a GET of the
    base URL followed by the path that the options hold at that moment, whose
    query string is the payload object, now holding the [access_token] of
    that answer. The caller's function is not called yet. *)
Theorem respond_exchange_starts_operation (i : nat) (req : wire_request)
    (d : nat) (l : loc) (s : value) (f : fid) (error : value) (statusCode : Z)
    (b : loc) (body : gmap string value) (o : descriptor) (st : state) :
  st_pending st !! i = Some (req, KAcquired (KOperation d (VObj l) s (KUser f))) ->
  truthy error = false ->
  200 <= statusCode < 300 ->
  st_heap st !! b = Some body ->
  st_options st !! d = Some o ->
  opt_method o = "GET"%string ->
  let st' := run (respond i error statusCode (VObj b)) st in
  let token := default VUndefined (body !! "access_token"%string) in
  exists req' : wire_request,
    st_log st' = st_log st ++ [Requested req']
    /\ st_pending st' = delete i (st_pending st) ++ [(req', KUser f)]
    /\ uri req' = baseUrl (st_config st) +:+ opt_path o
    /\ req_method req' = "GET"%string
    /\ qs req' = VObj l
    /\ get_prop (st_heap st') (VObj l) "access_token" = Some token
    /\ accessToken (st_config st') = token
    /\ refreshToken (st_config st')
       = default VUndefined (body !! "refresh_token"%string).
Proof.
  intros Hi Herr Hs Hb Ho Hm. cbv zeta.
  assert (E : (statusCode <? 200) || (300 <=? statusCode) = false).
  { apply orb_false_iff. split; [apply Z.ltb_ge | apply Z.leb_gt]; lia. }
  assert (Hne : fresh (dom (st_heap st)) <> b).
  { intros <-. rewrite fresh_not_allocated in Hb. discriminate. }
  unfold run, respond. rewrite Hi.
  unfold on_response, on_response_with. rewrite Herr, E.
  unfold alloc. munfold. simpl. munfold.
  erewrite store_tokens_response;
    [| simpl; apply lookup_insert_eq
     | simpl; rewrite lookup_insert_ne by assumption; exact Hb ].
  simpl. rewrite Ho. unfold exec_with.
  erewrite buildRequest_get_object; [| simpl; exact Hm | reflexivity].
  simpl. eexists. repeat split; try reflexivity; try exact Hm.
  rewrite lookup_insert_eq. simpl. rewrite lookup_insert_eq. reflexivity.
Qed.

(** *** Binding from the payload *)

Lemma property_missing_empty (h : heap) (l : loc) (param : string) :
  h !! l = Some ∅ -> property_missing h (VObj l) param = true.
Proof.
  intros Hl. unfold property_missing. simpl. rewrite Hl. simpl.
  rewrite lookup_empty. reflexivity.
Qed.

Lemma missing_properties_empty (h : heap) (l : loc) (params : list string) :
  h !! l = Some ∅ ->
  missing_properties h (VObj l) params = map strip_first_colon params.
Proof.
  intros Hl. unfold missing_properties. f_equal.
  induction params as [|param rest IH]; simpl; [reflexivity|].
  rewrite property_missing_empty by assumption. rewrite IH. reflexivity.
Qed.

Lemma substitute_payload_empty (h : heap) (l : loc) (p : string) (params : list string) :
  h !! l = Some ∅ -> substitute_payload h (VObj l) p params = p.
Proof.
  intros Hl. induction params as [|param rest IH]; simpl; [reflexivity|].
  rewrite property_missing_empty by assumption. exact IH.
Qed.

(** For a method other than GET and DELETE, with a callback and an object
    before it, when the binding stays within plain data (no placeholder named
    after a member of [Object.prototype], no replacement that is a function
    or prints through a [toString] of its own, a payload that is not an
    [Error]): the placeholders are bound from the payload, in place. Those
    that have a truthy property of their name are replaced in the path of
    the options. If some have none, the call throws "The JSON is missing the
    following properties: " and their names, in template order, and the
    replacements already made stay in the options; if all have one, the
    call goes on to the token manager. *)
Theorem describe_binds_from_payload (d : nat) (this_schema : value)
    (args : list value) (st : state) (o : descriptor) (f : fid) :
  let n := Z.of_nat (length args) in
  let p := arg_at args (n - 2) in
  let params := path_parameters (opt_path o) in
  let missing := missing_properties (st_heap st) p params in
  st_options st !! d = Some o ->
  String.eqb (opt_method o) "GET" || String.eqb (opt_method o) "DELETE" = false ->
  arg_at args (n - 1) = VFun f ->
  typeof p = "object"%string ->
  plain_binding (st_heap st) p params = true ->
  exists opts : gmap nat descriptor,
    opts !! d = Some {| opt_path := substitute_payload (st_heap st) p (opt_path o) params;
                        opt_method := opt_method o |}
    /\ (missing <> [] ->
        describe d this_schema args st
        = (Throw (VErr ("The JSON is missing the following properties: "
                        +:+ join ", " missing)),
           with_options opts st))
    /\ (missing = [] ->
        describe d this_schema args st
        = generateAccessToken (KOperation d p this_schema (KUser f))
            (with_options opts st)).
Proof.
  intros n p params missing Ho Hm Hcb Hobj _. subst n p params missing.
  destruct (fill_from_payload_state d (arg_at args (Z.of_nat (length args) - 2))
              (path_parameters (opt_path o)) [] st o Ho) as (opts & E & Hopts).
  change ([] ++ ?x) with x in E.
  exists opts. split; [exact Hopts|].
  split; intros Hmissing;
    unfold describe; rewrite Hcb;
    unfold mbind at 1, M_bind at 1; unfold read_options at 1; rewrite Ho;
    rewrite Hm, Hobj; simpl String.eqb;
    unfold mbind at 1, M_bind at 1; unfold mret at 1, M_ret at 1;
    unfold mbind at 1, M_bind at 1; unfold mbind at 1, M_bind at 1;
    rewrite E.
  - destruct (missing_properties _ _ _) as [|m ms]; [contradiction|]. reflexivity.
  - rewrite Hmissing. reflexivity.
Qed.

(** For a method other than GET and DELETE and a template with placeholders,
    none of them named after a member of [Object.prototype] (which the empty
    payload would inherit), a call with a callback and no object before it
    throws "The JSON is missing the following properties: " and the names of
    all the placeholders; the options, the configuration, the pending calls
    and the log are as before. *)
Theorem describe_without_payload (d : nat) (this_schema : value)
    (args : list value) (st : state) (o : descriptor) (f : fid) :
  let n := Z.of_nat (length args) in
  let params := path_parameters (opt_path o) in
  st_options st !! d = Some o ->
  String.eqb (opt_method o) "GET" || String.eqb (opt_method o) "DELETE" = false ->
  arg_at args (n - 1) = VFun f ->
  typeof (arg_at args (n - 2)) <> "object"%string ->
  params <> [] ->
  own_named params = true ->
  exists st' : state,
    describe d this_schema args st
    = (Throw (VErr ("The JSON is missing the following properties: "
                    +:+ join ", " (map strip_first_colon params))),
       st')
    /\ st_options st' !! d = Some o
    /\ same_but_heap st (with_options (st_options st) st').
Proof.
  intros n params Ho Hm Hcb Hnone Hparams _. subst n params.
  assert (Et : String.eqb (typeof (arg_at args (Z.of_nat (length args) - 2)))
                 "object" = false) by (apply String.eqb_neq; assumption).
  set (l := fresh (dom (st_heap st))).
  set (st0 := with_heap (<[l := ∅]> (st_heap st)) st).
  assert (Hl : st_heap st0 !! l = Some ∅) by apply lookup_insert_eq.
  destruct (fill_from_payload_state d (VObj l) (path_parameters (opt_path o)) [] st0 o Ho)
    as (opts & E & Hopts).
  change ([] ++ ?x) with x in E.
  rewrite missing_properties_empty in E by exact Hl.
  rewrite substitute_payload_empty in Hopts by exact Hl.
  exists (with_options opts st0). split; [|split].
  - unfold describe. rewrite Hcb.
    unfold mbind at 1, M_bind at 1. unfold read_options at 1. rewrite Ho.
    rewrite Hm, Et.
    unfold mbind at 1, M_bind at 1. unfold new_object, alloc. munfold.
    fold l. change (with_heap (<[l:=∅]> (st_heap st)) st) with st0 in E.
    unfold mbind, M_bind in E.
    match goal with
    | |- context [fill_from_payload d (VObj l) [] _ ?s] => change s with st0
    end.
    rewrite E.
    destruct (path_parameters (opt_path o)) as [|q qs]; [contradiction|].
    reflexivity.
  - simpl. rewrite Hopts. destruct o; reflexivity.
  - unfold same_but_heap. simpl. auto.
Qed.

(** *** One effect per call *)

Lemma one_effect_throw (cb e : value) (st st' : state) :
  st_config st' = st_config st -> st_log st' = st_log st ->
  st_pending st' = st_pending st ->
  one_effect cb st (Throw e, st').
Proof. intros Hc Hl Hp. split; [exact Hc|]. left. exists e. auto. Qed.

Lemma generateAccessToken_operation_effect (d : nat) (p s : value) (f : fid)
    (o : descriptor) (st : state) :
  st_options st !! d = Some o ->
  one_effect (VFun f) st (generateAccessToken (KOperation d p s (KUser f)) st).
Proof.
  intros Ho. destruct (truthy (accessToken (st_config st))) eqn:Htok.
  - rewrite generateAccessToken_with_token by assumption.
    erewrite apply_cont_operation by exact Ho.
    match goal with
    | |- context [exec ?i ?k st] =>
        destruct (exec_cases i k st) as (h' & [(q & j & g & ->) | (msg & ->)])
    end.
    + split; [reflexivity|]. right. right. eexists _, _. simpl. auto.
    + split; [reflexivity|]. right. left. exists f, msg. simpl. auto.
  - unfold generateAccessToken. unfold mbind at 1, M_bind at 1.
    unfold get_config at 1. rewrite Htok.
    destruct (negb (truthy (clientId (st_config st)))
              || negb (truthy (clientSecret (st_config st)))).
    + simpl. split; [reflexivity|]. right. left. eexists f, _. simpl. auto.
    + unfold mbind at 1, M_bind at 1. unfold new_object, alloc. munfold.
      match goal with
      | |- context [exec ?i ?k ?s0] =>
          destruct (exec_cases i k s0) as (h' & [(q & j & g & ->) | (msg & ->)])
      end.
      * split; [reflexivity|]. right. right. eexists _, _. simpl. auto.
      * split; [reflexivity|]. right. left. exists f, msg. simpl. auto.
Qed.

(** A call of a generated operation whose arguments before the callback
    are plain text for [replace] (none is a function, which line 42 would
    call as a replacer, or an object with a [toString] of its own) and whose
    binding from the payload stays within plain data does exactly one thing
    before it returns, and never writes the stored tokens: it throws
    (nothing is logged, nothing is sent), or it calls its callback once with
    an [Error] and [null], or it hands one request with [strictSSL] set to
    the transport. *)
Theorem describe_one_effect (d : nat) (this_schema : value) (args : list value)
    (st : state) :
  let n := Z.of_nat (length args) in
  forallb (plain_text (st_heap st)) (removelast args) = true ->
  (forall o : descriptor,
     st_options st !! d = Some o ->
     plain_binding (st_heap st) (arg_at args (n - 2))
       (path_parameters (opt_path o)) = true) ->
  one_effect (arg_at args (n - 1)) st (describe d this_schema args st).
Proof.
  intros n _ _. subst n.
  unfold describe.
  destruct (arg_at args (Z.of_nat (length args) - 1)) as [| | | | | | |f] eqn:Hcb;
    try (apply one_effect_throw; reflexivity).
  unfold mbind at 1, M_bind at 1. unfold read_options at 1.
  destruct (st_options st !! d) as [o|] eqn:Ho;
    [|apply one_effect_throw; reflexivity].
  assert (Htail : forall (p : value) (st0 : state),
            st_options st0 !! d = Some o ->
            st_config st0 = st_config st -> st_log st0 = st_log st ->
            st_pending st0 = st_pending st ->
            one_effect (VFun f) st
              (((if String.eqb (opt_method o) "GET" || String.eqb (opt_method o) "DELETE"
                 then
                   if Z.of_nat (length args)
                      <? Z.of_nat (length (path_parameters (opt_path o))) + 1
                   then throw (VErr ("Expecting parameters: "
                                     +:+ strip_colons (join ", " (path_parameters (opt_path o)))
                                     +:+ ""))
                   else fill_from_arguments d args 0 (path_parameters (opt_path o))
                 else
                   missingProperties ← fill_from_payload d p [] (path_parameters (opt_path o));
                   if (0 <? length missingProperties)%nat
                   then throw (VErr ("The JSON is missing the following properties: "
                                     +:+ join ", " missingProperties))
                   else mret tt);;
                generateAccessToken (KOperation d p this_schema (KUser f))) st0)).
  { intros p st0 Ho0 Hc0 Hl0 Hp0.
    assert (Hgen : forall opts : gmap nat descriptor,
              is_Some (opts !! d) ->
              one_effect (VFun f) st
                (generateAccessToken (KOperation d p this_schema (KUser f))
                   (with_options opts st0))).
    { intros opts [o' Ho'].
      pose proof (generateAccessToken_operation_effect d p this_schema f o'
                    (with_options opts st0) Ho') as Hg.
      unfold one_effect in *. simpl in Hg. rewrite Hc0, Hl0, Hp0 in Hg. exact Hg. }
    unfold mbind at 1, M_bind at 1.
    destruct (String.eqb (opt_method o) "GET" || String.eqb (opt_method o) "DELETE").
    - destruct (Z.of_nat (length args)
                <? Z.of_nat (length (path_parameters (opt_path o))) + 1).
      + apply one_effect_throw; assumption.
      + destruct (fill_from_arguments_state d args (path_parameters (opt_path o)) 0 st0 o Ho0)
          as (opts & -> & Hopts).
        apply Hgen. rewrite Hopts. eauto.
    - unfold mbind at 1, M_bind at 1.
      destruct (fill_from_payload_state d p (path_parameters (opt_path o)) [] st0 o Ho0)
        as (opts & -> & Hopts).
      destruct (0 <? length _)%nat.
      + apply one_effect_throw; assumption.
      + apply Hgen. rewrite Hopts. eauto. }
  unfold mbind at 1, M_bind at 1.
  destruct (String.eqb (typeof (arg_at args (Z.of_nat (length args) - 2))) "object").
  - apply Htail; auto.
  - unfold new_object, alloc. munfold.
    exact (Htail (VObj (fresh (dom (st_heap st))))
             (with_heap (<[fresh (dom (st_heap st)) := ∅]> (st_heap st)) st)
             Ho eq_refl eq_refl eq_refl).
Qed.

(** *** Edges *)



Lemma get_prop_truthy (h : heap) (v : value) (k : string) :
  truthy v = true -> exists m : value, get_prop h v k = Some m.
Proof. intros Hv. destruct v; try discriminate; simpl; eauto. Qed.

(** After a client-credentials exchange has failed with a transport error,
    the token manager is where it was: with no token stored and the
    credentials set, the next call starts a new exchange. *)
Theorem exchange_failure_allows_retry (i : nat) (req : wire_request) (k k' : cont)
    (error : value) (statusCode : Z) (body : value) (st : state) :
  st_pending st !! i = Some (req, KAcquired k) ->
  direct k = true ->
  truthy error = true ->
  truthy (accessToken (st_config st)) = false ->
  truthy (clientId (st_config st)) = true ->
  truthy (clientSecret (st_config st)) = true ->
  let st1 := run (respond i error statusCode body) st in
  exists (req' : wire_request) (h' : heap),
    generateAccessToken k' st1 = (Ret tt, sent req' (KAcquired k') h' st1)
    /\ uri req' = baseUrl (st_config st) +:+ "/oauth/token"
    /\ req_method req' = "POST"%string
    /\ st_pending st1 = delete i (st_pending st).
Proof.
  intros Hi Hk Herr Htok Hid Hsecret st1.
  destruct (get_prop_truthy (st_heap st) error "message" Herr) as (m & Hm).
  assert (E1 : st1 = logged (Called (user_of k)
                               (VErr ("Error getting the access_token: " +:+ to_string m))
                               VNull) (answered i st)).
  { subst st1. unfold run, respond. rewrite Hi.
    unfold on_response, on_response_with. rewrite Herr. simpl. rewrite Herr.
    munfold. simpl. rewrite Hm.
    rewrite apply_cont_direct_error by (assumption || reflexivity). reflexivity. }
  assert (Hc : st_config st1 = st_config st) by (rewrite E1; reflexivity).
  destruct (generateAccessToken_exchange k' st1) as (req' & h' & E & Huri & Hmeth & _);
    try (rewrite Hc; assumption).
  exists req', h'. split; [exact E|].
  split; [rewrite Huri, Hc; reflexivity|]. split; [exact Hmeth|].
  rewrite E1. reflexivity.
Qed.

(** *** Validation comes after the token *)




End Properties.

(** ** The theorems at concrete inputs *)

#[local] Existing Instance plain_host.
#[local] Existing Instance name_required.

Lemma describe_requires_callback_witness :
  describe 0%nat VUndefined [VNum 42] ready_state
  = (Throw (VErr "Callback is required"), ready_state).
Proof.
  apply (describe_requires_callback).
  simpl. discriminate.
Defined.

Lemma generateAccessToken_without_network_witness :
  generateAccessToken (KUser 1%nat) ready_state
  = (Ret tt, logged (Called 1%nat VNull (VStr "tok")) ready_state)
  /\ st_pending (snd (generateAccessToken (KUser 1%nat)
                        unconfigured_state)) = [].
Proof.
  split.
  - apply (proj1 (generateAccessToken_without_network
                    (KUser 1%nat) ready_state)).
    reflexivity.
  - apply (proj2 (generateAccessToken_without_network
                    (KUser 1%nat) unconfigured_state)).
    + reflexivity.
    + left. reflexivity.
Defined.

Lemma buildRequest_get_aliases_payload_witness :
  exists (req : wire_request) (st' : state),
    buildRequest (intent_with_schema "GET")
      (state_with_object {[ "page"%string := VNum 2 ]} ready_state) = (Ret req, st')
    /\ qs req = VObj 100%positive
    /\ st_heap st' !! 100%positive
       = Some (<["access_token"%string := VStr "tok"]> {[ "page"%string := VNum 2 ]}).
Proof.
  apply (buildRequest_get_aliases_payload
           (intent_with_schema "GET")
           (state_with_object {[ "page"%string := VNum 2 ]} ready_state)
           100%positive {[ "page"%string := VNum 2 ]}).
  - reflexivity.
  - reflexivity.
  - apply lookup_insert_eq.
Defined.



Lemma exec_rejects_invalid_payload_witness :
  let st := state_with_object ∅ ready_state in
  exec (intent_with_schema "POST") (KUser 1%nat) st
  = (Ret tt, logged (Called 1%nat (VErr "name is required") VNull)
               (with_heap (snd (alloc ∅ (st_heap st))) st))
  /\ st_pending (snd (exec (intent_with_schema "POST") (KUser 1%nat) st)) = [].
Proof.
  intros st.
  destruct (exec_rejects_invalid_payload (intent_with_schema "POST") (KUser 1%nat) st
              eq_refl eq_refl eq_refl) as (E & P & _).
  - vm_compute. discriminate.
  - split; [|exact P]. rewrite E. vm_compute. reflexivity.
Defined.

(** C7, as the specification words it, fails for GET: the payload violates
    the schema, and yet the request goes to the transport and the callback
    gets no error. *)
Lemma exec_get_skips_validation_counterexample :
  let st := state_with_object ∅ ready_state in
  let st' := run (exec (intent_with_schema "GET") (KUser 1%nat)) st in
  truthy (schema (intent_with_schema "GET")) = true
  /\ validate (st_heap st) (schema (intent_with_schema "GET"))
       (payload (intent_with_schema "GET")) <> []
  /\ map uri (requests_of (st_log st')) = ["https://api.example.com/users"%string]
  /\ length (st_pending st') = 1%nat
  /\ calls_of (st_log st') = [].
Proof.
  vm_compute. repeat split; discriminate.
Qed.

Lemma describe_expecting_parameters_witness :
  exists st' : state,
    describe 0%nat VUndefined [VNum 1; VFun 7%nat]
      (example_state (VStr "tok") VUndefined two_placeholders)
    = (Throw (VErr "Expecting parameters: x, y"), st')
    /\ st_pending st' = [] /\ st_log st' = [].
Proof.
  destruct (describe_expecting_parameters 0%nat VUndefined [VNum 1; VFun 7%nat]
              (example_state (VStr "tok") VUndefined two_placeholders)
              two_placeholders 7%nat)
    as (st' & E & _ & _ & P & L).
  - reflexivity.
  - left. reflexivity.
  - reflexivity.
  - simpl. lia.
  - exists st'. split; [exact E|]. split; [exact P | exact L].
Defined.

(** C3, as the specification words it, fails: with one argument for two
    placeholders only [y] is unfilled, and the error names [x] and [y]. *)
Lemma describe_lists_all_parameters_counterexample :
  let r := describe 0%nat VUndefined [VNum 1; VFun 7%nat]
             (example_state (VStr "tok") VUndefined two_placeholders) in
  unfilled_names (opt_path two_placeholders) 1 = ["y"%string]
  /\ fst r = Throw (VErr "Expecting parameters: x, y")
  /\ fst r <> Throw (VErr ("Expecting parameters: "
                           +:+ join ", " (unfilled_names (opt_path two_placeholders) 1))).
Proof.
  vm_compute. repeat split; discriminate.
Qed.

Lemma describe_substitutes_in_place_witness :
  st_options (snd (describe 0%nat VUndefined [VNum 42; VFun 1%nat] ready_state)) !! 0%nat
  = Some {| opt_path := "/users/42"; opt_method := "GET" |}
  /\ st_options (snd (describe 0%nat VUndefined [VFun 1%nat]
                        (example_state (VStr "tok") VUndefined users_list)))
     = {[ 0%nat := users_list ]}.
Proof.
  split.
  - apply (proj2 (describe_substitutes_in_place 0%nat VUndefined [VNum 42; VFun 1%nat]
                    ready_state users_by_id eq_refl)).
    + left. reflexivity.
    + exists 1%nat. reflexivity.
    + simpl. lia.
  - apply (proj1 (describe_substitutes_in_place 0%nat VUndefined [VFun 1%nat]
                    (example_state (VStr "tok") VUndefined users_list)
                    users_list eq_refl)).
    reflexivity.
Defined.

(** C4 at the failing input, the operation of [/users/:id] called as
    [op(42, cb)] and then as [op(43, cb)] with a token stored: the first call
    leaves [/users/42] in the [path] field of the options, where the template
    was, and the second call, finding no placeholder any more, asks for
    [/users/42] again instead of [/users/43]. *)
Theorem describe_path_leaks_into_later_call :
  let st1 := run (describe 0%nat VUndefined [VNum 42; VFun 1%nat]) ready_state in
  let st2 := run (describe 0%nat VUndefined [VNum 43; VFun 2%nat]) st1 in
  st_options ready_state !! 0%nat = Some {| opt_path := "/users/:id"; opt_method := "GET" |}
  /\ st_options st1 !! 0%nat = Some {| opt_path := "/users/42"; opt_method := "GET" |}
  /\ st_options st1 !! 0%nat <> st_options ready_state !! 0%nat
  /\ path_parameters "/users/42" = []
  /\ map uri (requests_of (st_log st2))
     = ["https://api.example.com/users/42"; "https://api.example.com/users/42"]%string.
Proof.
  vm_compute. repeat split; discriminate.
Qed.



(** C2 at a state with the access token "tok" and the refresh token "ref":
    the refresh exchange is a POST to [/oauth/token] whose body is
    [{client_secret: "tok", grant_type: "refresh_token"}] and whose query
    string is [{access_token: "tok"}]; the stored refresh token is nowhere in
    the request. *)
Theorem refreshAccessToken_omits_refresh_token :
  let st' := run (refreshAccessToken (KUser 1%nat)) ready_state in
  refreshToken (st_config ready_state) = VStr "ref"
  /\ exists (req : wire_request) (body query : loc),
       requests_of (st_log st') = [req]
       /\ uri req = "https://api.example.com/oauth/token"%string
       /\ req_method req = "POST"%string
       /\ json req = VObj body
       /\ st_heap st' !! body
          = Some {[ "client_secret"%string := VStr "tok";
                    "grant_type"%string := VStr "refresh_token" ]}
       /\ qs req = VObj query
       /\ st_heap st' !! query = Some {[ "access_token"%string := VStr "tok" ]}
       /\ form req = VUndefined.
Proof.
  split; [reflexivity|].
  eexists _, 1%positive, 2%positive.
  vm_compute. repeat split.
Qed.

Lemma describe_binds_from_payload_witness :
  let st := state_with_object {[ "id"%string := VNum 7 ]}
              (example_state (VStr "tok") VUndefined post_of_user) in
  exists st' : state,
    describe 0%nat VUndefined [VObj 100%positive; VFun 1%nat] st
    = (Throw (VErr "The JSON is missing the following properties: slug"), st')
    /\ st_options st' !! 0%nat
       = Some {| opt_path := "/users/7/posts/:slug"; opt_method := "POST" |}.
Proof.
  intros st.
  destruct (describe_binds_from_payload 0%nat VUndefined
              [VObj 100%positive; VFun 1%nat] st post_of_user 1%nat
              eq_refl eq_refl eq_refl eq_refl) as (opts & Hopts & Hthrow & _).
  { vm_compute. reflexivity. }
  eexists. split.
  - rewrite Hthrow; [reflexivity|]. vm_compute. discriminate.
  - simpl. rewrite Hopts. vm_compute. reflexivity.
Defined.

Lemma describe_without_payload_witness :
  exists st' : state,
    describe 0%nat VUndefined [VFun 1%nat]
      (example_state (VStr "tok") VUndefined post_of_user)
    = (Throw (VErr "The JSON is missing the following properties: id, slug"), st')
    /\ st_options st' !! 0%nat = Some post_of_user.
Proof.
  destruct (describe_without_payload 0%nat VUndefined [VFun 1%nat]
              (example_state (VStr "tok") VUndefined post_of_user) post_of_user 1%nat
              eq_refl eq_refl eq_refl) as (st' & E & Ho & _).
  - simpl. discriminate.
  - vm_compute. discriminate.
  - vm_compute. reflexivity.
  - exists st'. split; [exact E | exact Ho].
Defined.

Lemma buildRequest_json_body_witness :
  let st := state_with_object {[ "name"%string := VStr "x" ]} ready_state in
  exists (req : wire_request) (st' : state),
    buildRequest (intent_with_schema "POST") st = (Ret req, st')
    /\ json req = VObj 100%positive
    /\ form req = VUndefined
    /\ st_heap st' !! 100%positive = Some {[ "name"%string := VStr "x" ]}.
Proof.
  intros st.
  destruct (buildRequest_json_body (intent_with_schema "POST") st eq_refl eq_refl)
    as [E _].
  - right. vm_compute. reflexivity.
  - eexists _, _. split; [exact E|]. vm_compute. repeat split.
Defined.




Lemma refreshAccessToken_request_witness :
  exists (req : wire_request) (h' : heap),
    refreshAccessToken (KUser 1%nat) ready_state
    = (Ret tt, sent req (KRefreshed (KUser 1%nat)) h' ready_state)
    /\ uri req = "https://api.example.com/oauth/token"%string.
Proof.
  destruct (refreshAccessToken_request (KUser 1%nat) ready_state eq_refl)
    as (req & h' & l & E & Huri & _).
  exists req, h'. split; [exact E | exact Huri].
Defined.

Lemma respond_refresh_witness :
  let st := state_with_object token_body
              (run (refreshAccessToken (KUser 1%nat)) ready_state) in
  accessToken (st_config (run (respond 0%nat VNull 200 (VObj 100%positive)) st))
  = VStr "t2"
  /\ calls_of (st_log (run (respond 0%nat (VErr "timeout") 0 (VObj 100%positive)) st))
     = [(1%nat, VErr "Error refreshing previous access_token: timeout", VNull)].
Proof.
  intros st.
  destruct (st_pending st !! 0%nat) as [[req k]|] eqn:Hp; [|vm_compute in Hp; discriminate].
  assert (Hk : k = KRefreshed (KUser 1%nat)).
  { vm_compute in Hp. injection Hp as _ <-. reflexivity. }
  subst k. split.
  - destruct (respond_refresh 0%nat req 1%nat VNull 200 100%positive token_body st Hp)
      as [Hok _].
    assert (H200 : 200 <= 200 < 300) by lia.
    destruct (Hok eq_refl H200) as (_ & Htoken & _); [apply lookup_insert_eq|].
    rewrite Htoken. vm_compute. reflexivity.
  - destruct (respond_refresh 0%nat req 1%nat (VErr "timeout") 0 100%positive
                token_body st Hp) as [_ Hfail].
    rewrite (Hfail eq_refl (VStr "timeout") eq_refl). vm_compute. reflexivity.
Defined.


Lemma respond_exchange_starts_operation_witness :
  let st := state_with_object token_body
              (run (describe 0%nat VUndefined [VNum 42; VFun 1%nat]) fresh_state) in
  let st' := run (respond 0%nat VNull 200 (VObj 100%positive)) st in
  exists req' : wire_request,
    st_log st' = st_log st ++ [Requested req']
    /\ uri req' = "https://api.example.com/users/42"%string
    /\ get_prop (st_heap st') (qs req') "access_token" = Some (VStr "t2").
Proof.
  intros st st'. subst st'.
  destruct (st_pending st !! 0%nat) as [[req k]|] eqn:Hp; [|vm_compute in Hp; discriminate].
  assert (Hk : k = KAcquired (KOperation 0%nat (VObj 1%positive) VUndefined (KUser 1%nat))).
  { vm_compute in Hp. injection Hp as _ <-. reflexivity. }
  subst k.
  assert (H200 : 200 <= 200 < 300) by lia.
  destruct (respond_exchange_starts_operation 0%nat req 0%nat 1%positive VUndefined
              1%nat VNull 200 100%positive token_body
              {| opt_path := "/users/42"; opt_method := "GET" |} st
              Hp eq_refl H200)
    as (req' & Hlog & _ & Huri & _ & Hqs & Htoken & _).
  - apply lookup_insert_eq.
  - vm_compute. reflexivity.
  - reflexivity.
  - exists req'. split; [exact Hlog|]. split; [rewrite Huri; reflexivity|].
    rewrite Hqs, Htoken. vm_compute. reflexivity.
Defined.


Lemma exchange_failure_allows_retry_witness :
  let st1 := run (respond 0%nat (VErr "ECONNRESET") 0 VUndefined)
               (call_all [KUser 1%nat] fresh_state) in
  exists (req' : wire_request) (h' : heap),
    generateAccessToken (KUser 2%nat) st1
    = (Ret tt, sent req' (KAcquired (KUser 2%nat)) h' st1)
    /\ st_pending st1 = [].
Proof.
  intros st1. subst st1.
  destruct (st_pending (call_all [KUser 1%nat] fresh_state) !! 0%nat)
    as [[req k]|] eqn:Hp; [|vm_compute in Hp; discriminate].
  assert (Hk : k = KAcquired (KUser 1%nat)).
  { vm_compute in Hp. injection Hp as _ <-. reflexivity. }
  subst k.
  destruct (exchange_failure_allows_retry 0%nat req (KUser 1%nat) (KUser 2%nat)
              (VErr "ECONNRESET") 0 VUndefined (call_all [KUser 1%nat] fresh_state)
              Hp eq_refl eq_refl eq_refl eq_refl eq_refl)
    as (req' & h' & E & _ & _ & Hpending).
  exists req', h'. split; [exact E|]. rewrite Hpending. vm_compute. reflexivity.
Defined.



Lemma describe_one_effect_witness :
  one_effect (VFun 1%nat) ready_state
    (describe 0%nat VUndefined [VNum 42; VFun 1%nat] ready_state)
  /\ one_effect (VFun 1%nat)
       (state_with_object {[ "id"%string := VNum 7 ]}
          (example_state (VStr "tok") VUndefined post_of_user))
       (describe 0%nat VUndefined [VObj 100%positive; VFun 1%nat]
          (state_with_object {[ "id"%string := VNum 7 ]}
             (example_state (VStr "tok") VUndefined post_of_user))).
Proof.
  split.
  - apply (describe_one_effect 0%nat VUndefined [VNum 42; VFun 1%nat] ready_state).
    + reflexivity.
    + intros o Ho. vm_compute in Ho. injection Ho as <-. vm_compute. reflexivity.
  - apply (describe_one_effect 0%nat VUndefined [VObj 100%positive; VFun 1%nat]
             (state_with_object {[ "id"%string := VNum 7 ]}
                (example_state (VStr "tok") VUndefined post_of_user))).
    + vm_compute. reflexivity.
    + intros o Ho. vm_compute in Ho. injection Ho as <-. vm_compute. reflexivity.
Defined.
